(** * RsiBotBehaviour: one decision-and-reconciliation cycle

    A shallow embedding of [app/behaviours/rsi_bot.py].

    Numbers.  Balances, prices and indicator values are Python numbers; they
    are modelled as rationals ([Q]) and Python's numeric [==] as [Qeq].
    Dictionaries are [gmap]s, except those whose iteration order is
    observable (the classifier output that is sorted and walked), which are
    association lists in insertion order.

    Effects.  The behaviour mutates the holdings table, appends transactions
    and cancels exchange orders.  Every mutation is committed when it is
    issued, so an exception leaves the earlier mutations in place: an
    operation is a function from the world to an outcome that carries the
    world reached, whether it returned or raised. *)

From Stdlib Require Import QArith Qminmax Ascii String Sorted.
From stdpp Require Import gmap strings list fin_maps.

Local Open Scope Q_scope.
Local Open Scope string_scope.

(** ** Python exceptions seen by the cycle *)

Inductive exn : Type :=
  | KeyError (key : string)
  | IndexError
  | ValueError
  | TypeError
  | NoResultFound.

Inductive result (A : Type) : Type :=
  | Ok (a : A)
  | Err (e : exn).
Arguments Ok {A} a.
Arguments Err {A} e.

Definition result_bind {A B} (r : result A) (k : A -> result B) : result B :=
  match r with
  | Ok a => k a
  | Err e => Err e
  end.

Fixpoint result_map_list {A B} (f : A -> result B) (l : list A) : result (list B) :=
  match l with
  | [] => Ok []
  | x :: xs =>
      result_bind (f x) (fun y =>
      result_bind (result_map_list f xs) (fun ys => Ok (y :: ys)))
  end.

(** ** Data model *)

(** The three volumes of a holding row, also the value stored per symbol in
    the dictionary built by [__get_holdings]. *)
Record Holding : Type := mkHolding {
  volume_free : Q;
  volume_used : Q;
  volume_total : Q
}.

Inductive trade_action : Type := buy_base | sell_base.

Record Transaction : Type := mkTransaction {
  tx_exchange : string;
  tx_base_symbol : string;
  tx_quote_symbol : string;
  tx_action : trade_action;
  base_value : Q;
  quote_value : Q;
  fee_rate : Q;
  base_volume : Q;
  quote_volume : Q
}.

Record Order : Type := mkOrder {
  order_id : string;
  order_timestamp : Q
}.

Record OrderBook : Type := mkOrderBook {
  asks : list (Q * Q);
  bids : list (Q * Q)
}.

(** [get_account_markets(exchange)]: three dictionaries keyed by symbol. *)
Record AccountMarkets : Type := mkAccountMarkets {
  acct_free : gmap string Q;
  acct_used : gmap string Q;
  acct_total : gmap string Q
}.

(** The result of [analyze_rsi] for one pair. *)
Record IndicatorResult : Type := mkIndicatorResult {
  values : list Q;
  is_hot : bool;
  is_cold : bool
}.

(** [behaviour_config]: the options the cycle reads. *)
Record BehaviourConfig : Type := mkBehaviourConfig {
  mode : string;
  buy_rsi_threshold : Q;
  sell_rsi_threshold : Q;
  trade_limits : gmap string Q;
  open_order_max_hours : Q
}.

(** [exchange_interface]: what the exchange answers during one cycle.  A
    market entry is its dictionary key together with its ['symbol'] field. *)
Record ExchangeInterface : Type := mkExchangeInterface {
  exchanges : list string;
  get_symbol_markets : list string -> list (string * list (string * string));
  get_exchange_markets : list (string * list (string * string));
  get_open_orders : list (string * list Order);
  get_order_book : string -> string -> OrderBook;
  get_account_markets : string -> AccountMarkets
}.

(** [strategy_analyzer]: [get_historical_data] answers [None] when it raises
    [ccxt.NetworkError]. *)
Record StrategyAnalyzer : Type := mkStrategyAnalyzer {
  get_historical_data : string -> string -> string -> option (list Q);
  analyze_rsi : list Q -> Q -> Q -> IndicatorResult
}.

(** The clock and the locale: [datetime.now()] in seconds since the epoch,
    [datetime.fromtimestamp], which raises for a timestamp the platform
    cannot turn into a date (one in milliseconds, say), and the text
    [strftime('%c')] produces for a point in time. *)
Record Clock : Type := mkClock {
  now : Q;
  fromtimestamp : Q -> result Q;
  strftime_c : Q -> string
}.

(** The mutable world: the two tables of the database and the orders the
    exchange was asked to cancel, most recent last. *)
Record World : Type := mkWorld {
  holdings_table : gmap (string * string) Holding;
  transactions_table : list Transaction;
  cancelled_orders : list (string * string)
}.

(** ** Operations on the world *)

Inductive outcome (A : Type) : Type :=
  | Done (a : A) (w : World)
  | Raised (e : exn) (w : World).
Arguments Done {A} a w.
Arguments Raised {A} e w.

Definition op (A : Type) : Type := World -> outcome A.

Definition ret {A} (a : A) : op A := fun w => Done a w.

Definition raise {A} (e : exn) : op A := fun w => Raised e w.

Definition bind {A B} (c : op A) (k : A -> op B) : op B :=
  fun w =>
    match c w with
    | Done a w' => k a w'
    | Raised e w' => Raised e w'
    end.

Definition lift {A} (r : result A) : op A :=
  match r with
  | Ok a => ret a
  | Err e => raise e
  end.

Declare Scope op_scope.
Delimit Scope op_scope with op.
Notation "'do' x <- c ; k" := (bind c (fun x => k))
  (at level 10, x name, c at level 100, k at level 200) : op_scope.
Local Open Scope op_scope.

Fixpoint for_each {A} (l : list A) (body : A -> op unit) : op unit :=
  match l with
  | [] => ret tt
  | x :: xs => do _ <- body x; for_each xs body
  end.

(** The world an outcome ends in. *)
Definition world_of {A} (o : outcome A) : World :=
  match o with
  | Done _ w => w
  | Raised _ w => w
  end.

(** ** Python helpers *)

(** [x > y] on numbers. *)
Definition Qgtb (x y : Q) : bool := negb (Qle_bool x y).

(** [d[k]] on a dictionary keyed by strings. *)
Definition getitem {V} (d : gmap string V) (k : string) : result V :=
  match d !! k with
  | Some v => Ok v
  | None => Err (KeyError k)
  end.

(** [s.split('/')]. *)
Fixpoint split_slash (s : string) : list string :=
  match s with
  | EmptyString => [EmptyString]
  | String c rest =>
      if Ascii.eqb c "/"%char then EmptyString :: split_slash rest
      else
        match split_slash rest with
        | [] => [String c EmptyString]
        | p :: ps => String c p :: ps
        end
  end.

(** [a, b = parts]: unpacking into exactly two names. *)
Definition unpack2 (parts : list string) : result (string * string) :=
  match parts with
  | [a; b] => Ok (a, b)
  | _ => Err ValueError
  end.

(** ** The persistence collaborator *)

(** Modelled from the spec: the persistence collaborator [db_handler] is not
    part of this file's source.  The spec gives its contract:
    [read_holdings(filter?)] answers a queryable collection of Holding,
    [create_holding(payload)], [update_holding(holding)] and
    [create_transaction(payload)] write; a Holding is identified by
    (exchange, symbol), so the collection selected by an exchange and a
    symbol has at most one row.  [count()] is its size and [one()] its only
    row, raising when there is none.  Every write is committed at once. *)
Definition read_holdings (exchange symbol : string) : op (option Holding) :=
  fun w => Done (holdings_table w !! (exchange, symbol)) w.

(** Modelled from the spec: [count()] of the collection selected by a key,
    which holds one row or none. *)
Definition count (q : option Holding) : nat :=
  match q with
  | Some _ => 1%nat
  | None => 0%nat
  end.

(** Modelled from the spec: [one()], the only row of the collection; it
    raises when the collection is empty. *)
Definition one (q : option Holding) : op Holding :=
  match q with
  | Some h => ret h
  | None => raise NoResultFound
  end.

(** Modelled from the spec: [read_holdings()] without a filter, every row
    of the table with its key. *)
Definition read_all_holdings : op (list ((string * string) * Holding)) :=
  fun w => Done (map_to_list (holdings_table w)) w.

(** Modelled from the spec: [create_holding] and [update_holding] both store
    the row under its (exchange, symbol) and commit. *)
Definition write_holding (exchange symbol : string) (h : Holding) : op unit :=
  fun w =>
    Done tt (mkWorld (<[(exchange, symbol) := h]> (holdings_table w))
                     (transactions_table w) (cancelled_orders w)).

Definition create_holding := write_holding.
Definition update_holding := write_holding.

(** Modelled from the spec: [create_transaction] appends the record. *)
Definition create_transaction (t : Transaction) : op unit :=
  fun w =>
    Done tt (mkWorld (holdings_table w) (transactions_table w ++ [t])
                     (cancelled_orders w)).

(** [exchange_interface.cancel_order(exchange, id)]. *)
Definition cancel_order (exchange id : string) : op unit :=
  fun w =>
    Done tt (mkWorld (holdings_table w) (transactions_table w)
                     (cancelled_orders w ++ [(exchange, id)])).

Declare Scope result_scope.
Delimit Scope result_scope with res.
Notation "'do' x <- c ; k" := (result_bind c (fun x => k))
  (at level 10, x name, c at level 100, k at level 200) : result_scope.

(** ** Insertion-ordered dictionaries *)

(** [d[k]] on a dictionary kept in insertion order. *)
Fixpoint alist_getitem {V} (d : list (string * V)) (k : string) : result V :=
  match d with
  | [] => Err (KeyError k)
  | (k', v) :: rest => if String.eqb k' k then Ok v else alist_getitem rest k
  end.

(** [d[k] = v]: an existing key keeps its position, a new key goes last. *)
Fixpoint alist_setitem {V} (k : string) (v : V) (d : list (string * V))
  : list (string * V) :=
  match d with
  | [] => [(k, v)]
  | (k', v') :: rest =>
      if String.eqb k' k then (k', v) :: rest
      else (k', v') :: alist_setitem k v rest
  end.

(** ** [sorted(iterable, key=...)]

    Python's [sorted] is stable; it is modelled by the stable insertion
    sort, each element being put in front of the first one whose key is not
    smaller. *)
Fixpoint insert_sorted {A} (key : A -> Q) (x : A) (l : list A) : list A :=
  match l with
  | [] => [x]
  | y :: ys =>
      if Qle_bool (key x) (key y) then x :: y :: ys
      else y :: insert_sorted key x ys
  end.

Definition sorted {A} (key : A -> Q) (l : list A) : list A :=
  foldr (insert_sorted key) [] l.

(** ** Values compared by the order janitor *)

Inductive pyobj : Type :=
  | PyDatetime (t : Q)
  | PyStr (s : string).

(** [a > b]: datetimes compare with datetimes and strings with strings; any
    other combination raises [TypeError]. *)
Definition py_gt (a b : pyobj) : result bool :=
  match a, b with
  | PyDatetime x, PyDatetime y => Ok (Qgtb x y)
  | PyStr x, PyStr y => Ok (String.ltb y x)
  | _, _ => Err TypeError
  end.

(** ** The dictionary of holdings *)

(** One iteration of the loop of [__get_holdings]. *)
Definition holdings_add_row (key : string * string) (row : Holding)
    (holdings : gmap string (gmap string Holding))
  : gmap string (gmap string Holding) :=
  let '(exchange, symbol) := key in
  let holdings :=
    match holdings !! exchange with
    | None => <[exchange := ∅]> holdings
    | Some _ => holdings
    end in
  <[exchange := <[symbol := row]> (default ∅ (holdings !! exchange))]> holdings.

Definition holdings_dict (table : gmap (string * string) Holding)
  : gmap string (gmap string Holding) :=
  map_fold holdings_add_row ∅ table.

(** [not d] for a dictionary. *)
Definition dict_is_empty {K V} `{Countable K} (d : gmap K V) : bool :=
  Nat.eqb (size d) 0.

(** ** The decision for one pair *)

Inductive decision : Type := BUY | SELL | HOLD.

(** [rsi_data[exchange][x]['values'][0]] *)
Definition first_value (rsi : list (string * IndicatorResult)) (x : string)
  : result Q :=
  (do r <- alist_getitem rsi x;
   match values r with
   | v :: _ => Ok v
   | [] => Err IndexError
   end)%res.

(** [sorted(rsi_data[exchange], key=lambda x: rsi_data[exchange][x]['values'][0])]:
    the key of every pair is computed, then the pairs are sorted on it. *)
Definition rsi_sorted (rsi : list (string * IndicatorResult))
  : result (list string) :=
  (do decorated <-
     result_map_list (fun x => do v <- first_value rsi x; Ok (v, x))
       (map fst rsi);
   Ok (map snd (sorted fst decorated)))%res.

(** The guards of the decision loop of [run] for one pair. *)
Definition evaluate (current_holdings : gmap string (gmap string Holding))
    (exchange base_symbol quote_symbol : string) (r : IndicatorResult)
  : result decision :=
  (if is_hot r then
     do on_exchange <- getitem current_holdings exchange;
     do quote_holding <- getitem on_exchange quote_symbol;
     if negb (Qeq_bool (volume_total quote_holding) 0) then
       match on_exchange !! base_symbol with
       | None => Ok BUY
       | Some base_holding =>
           if Qeq_bool (volume_total base_holding) 0 then Ok BUY else Ok HOLD
       end
     else Ok HOLD
   else if is_cold r then
     do on_exchange <- getitem current_holdings exchange;
     match on_exchange !! base_symbol with
     | Some base_holding =>
         if negb (Qeq_bool (volume_free base_holding) 0) then Ok SELL
         else Ok HOLD
     | None => Ok HOLD
     end
   else Ok HOLD)%res.

Section Behaviour.

Variable behaviour_config : BehaviourConfig.
Variable exchange_interface : ExchangeInterface.
Variable strategy_analyzer : StrategyAnalyzer.
Variable clock : Clock.

Definition is_live : bool := String.eqb (mode behaviour_config) "live".

(** [__get_holdings] *)
Definition get_holdings : op (gmap string (gmap string Holding)) :=
  fun w => Done (holdings_dict (holdings_table w)) w.

(** [buy] *)
Definition buy (base_symbol quote_symbol market_pair exchange : string)
    (current_holdings : gmap string (gmap string Holding)) : op unit :=
  let order_book := get_order_book exchange_interface market_pair exchange in
  let base_ask :=
    match asks order_book with
    | (price, _) :: _ => Some price
    | [] => None
    end in
  match base_ask with
  | None => ret tt
  | Some base_ask =>
    if Qeq_bool base_ask 0 then ret tt
    else
      do current_symbol_holdings <-
        lift (do on_exchange <- getitem current_holdings exchange;
              getitem on_exchange quote_symbol)%res;
      let quote_bid := volume_free current_symbol_holdings in
      let quote_bid :=
        match trade_limits behaviour_config !! quote_symbol with
        | Some trade_limit =>
            if Qgtb quote_bid trade_limit then trade_limit else quote_bid
        | None => quote_bid
        end in
      let base_volume := quote_bid / base_ask in
      do _ <-
        (if is_live then ret tt
         else
           do potential_holdings <- read_holdings exchange base_symbol;
           do _ <-
             (match count potential_holdings with
              | S _ =>
                  do base_holding <- one potential_holdings;
                  let free := volume_free base_holding + base_volume in
                  let used := volume_used base_holding in
                  update_holding exchange base_symbol
                    (mkHolding free used (free + used))
              | O =>
                  create_holding exchange base_symbol
                    (mkHolding base_volume 0 base_volume)
              end);
           do quote_query <- read_holdings exchange quote_symbol;
           do quote_holding <- one quote_query;
           let free := volume_free quote_holding - quote_bid in
           let used := volume_used quote_holding in
           update_holding exchange quote_symbol
             (mkHolding free used (free + used)));
      create_transaction
        (mkTransaction exchange base_symbol quote_symbol buy_base
           base_ask quote_bid 0 base_volume quote_bid)
  end.

(** [sell] *)
Definition sell (base_symbol quote_symbol market_pair exchange : string)
    (current_holdings : gmap string (gmap string Holding)) : op unit :=
  let order_book := get_order_book exchange_interface market_pair exchange in
  let bid :=
    match bids order_book with
    | (price, _) :: _ => Some price
    | [] => None
    end in
  match bid with
  | None => ret tt
  | Some bid =>
    if Qeq_bool bid 0 then ret tt
    else
      do current_symbol_holdings <-
        lift (do on_exchange <- getitem current_holdings exchange;
              getitem on_exchange base_symbol)%res;
      let base_bid := volume_free current_symbol_holdings in
      let base_bid :=
        match trade_limits behaviour_config !! base_symbol with
        | Some trade_limit =>
            if Qgtb base_bid trade_limit then trade_limit else base_bid
        | None => base_bid
        end in
      let quote_volume := base_bid * bid in
      do _ <-
        (if is_live then ret tt
         else
           do base_query <- read_holdings exchange base_symbol;
           do base_holding <- one base_query;
           let free := volume_free base_holding - base_bid in
           let used := volume_used base_holding in
           do _ <- update_holding exchange base_symbol
                     (mkHolding free used (free + used));
           do quote_query <- read_holdings exchange quote_symbol;
           do quote_holding <- one quote_query;
           let free := volume_free quote_holding + quote_volume in
           let used := volume_used quote_holding in
           update_holding exchange quote_symbol
             (mkHolding free used (free + used)));
      create_transaction
        (mkTransaction exchange base_symbol quote_symbol sell_base
           bid quote_volume 0 base_bid quote_volume)
  end.

(** [__create_holdings].  The symbols of an account are walked in the order
    of the keys of the map, where Python walks them in insertion order; the
    two differ only in which rows are written before a [KeyError]. *)
Definition create_holdings : op unit :=
  for_each (exchanges exchange_interface) (fun exchange =>
    let user_account_markets :=
      get_account_markets exchange_interface exchange in
    for_each (map fst (map_to_list (acct_free user_account_markets)))
      (fun symbol =>
        do free <- lift (getitem (acct_free user_account_markets) symbol);
        do used <- lift (getitem (acct_used user_account_markets) symbol);
        do total <- lift (getitem (acct_total user_account_markets) symbol);
        create_holding exchange symbol (mkHolding free used total))).

(** The loop of [__update_holdings]; [user_account_markets] caches the
    account of every exchange met so far. *)
Fixpoint update_rows (rows : list ((string * string) * Holding))
    (user_account_markets : gmap string AccountMarkets) : op unit :=
  match rows with
  | [] => ret tt
  | ((exchange, symbol), _) :: rest =>
      let user_account_markets :=
        match user_account_markets !! exchange with
        | None =>
            <[exchange := get_account_markets exchange_interface exchange]>
              user_account_markets
        | Some _ => user_account_markets
        end in
      do account <- lift (getitem user_account_markets exchange);
      do free <- lift (getitem (acct_free account) symbol);
      do used <- lift (getitem (acct_used account) symbol);
      do total <- lift (getitem (acct_total account) symbol);
      do _ <- update_holding exchange symbol (mkHolding free used total);
      update_rows rest user_account_markets
  end.

(** [__update_holdings] *)
Definition update_holdings : op unit :=
  do holdings_table <- read_all_holdings;
  update_rows holdings_table ∅.

(** The reconciliation phase of [run]: bootstrap an empty ledger, re-sync a
    populated one in live mode, leave it alone otherwise. *)
Definition reconcile : op (gmap string (gmap string Holding)) :=
  do current_holdings <- get_holdings;
  if dict_is_empty current_holdings then
    do _ <- create_holdings;
    get_holdings
  else if is_live then
    do _ <- update_holdings;
    get_holdings
  else ret current_holdings.

(** The sweep of open orders of [run]: the time of the order is computed
    for every order, in every mode, before the mode is tested. *)
Definition sweep_order (exchange : string) (order : Order) : op unit :=
  do order_datetime <- lift (fromtimestamp clock (order_timestamp order));
  let order_time := PyStr (strftime_c clock order_datetime) in
  let time_to_hold :=
    PyDatetime (now clock - open_order_max_hours behaviour_config * 3600) in
  if is_live then
    do stale <- lift (py_gt time_to_hold order_time);
    if stale : bool then cancel_order exchange (order_id order) else ret tt
  else ret tt.

Definition sweep_stale_orders : op unit :=
  for_each (get_open_orders exchange_interface) (fun '(exchange, orders) =>
    for_each orders (sweep_order exchange)).

(** The classification loop of [run] for the markets of one exchange: a
    pair whose historical data cannot be fetched is skipped. *)
Definition classify_markets (exchange : string)
    (markets : list (string * string)) : list (string * IndicatorResult) :=
  foldl (fun rsi '(market_pair, symbol) =>
           match get_historical_data strategy_analyzer symbol exchange "1d" with
           | Some one_day_historical_data =>
               alist_setitem market_pair
                 (analyze_rsi strategy_analyzer one_day_historical_data
                    (buy_rsi_threshold behaviour_config)
                    (sell_rsi_threshold behaviour_config))
                 rsi
           | None => rsi
           end)
        [] markets.

(** The body of the decision loop of [run] for one pair; it answers the
    dictionary of holdings the next pair is evaluated against. *)
Definition decide_pair (exchange : string)
    (markets : list (string * IndicatorResult)) (market_pair : string)
    (current_holdings : gmap string (gmap string Holding))
  : op (gmap string (gmap string Holding)) :=
  do symbols <- lift (unpack2 (split_slash market_pair));
  let '(base_symbol, quote_symbol) := symbols in
  do r <- lift (alist_getitem markets market_pair);
  do d <- lift (evaluate current_holdings exchange base_symbol quote_symbol r);
  match d with
  | BUY =>
      do _ <- buy base_symbol quote_symbol market_pair exchange
                current_holdings;
      get_holdings
  | SELL =>
      do _ <- sell base_symbol quote_symbol market_pair exchange
                current_holdings;
      get_holdings
  | HOLD => ret current_holdings
  end.

Fixpoint decide_pairs (exchange : string)
    (markets : list (string * IndicatorResult)) (pairs : list string)
    (current_holdings : gmap string (gmap string Holding))
  : op (gmap string (gmap string Holding)) :=
  match pairs with
  | [] => ret current_holdings
  | market_pair :: rest =>
      do current_holdings <-
        decide_pair exchange markets market_pair current_holdings;
      decide_pairs exchange markets rest current_holdings
  end.

Fixpoint decide_exchanges
    (rsi_data : list (string * list (string * IndicatorResult)))
    (rsi_sorted_pairs : list (string * list string))
    (current_holdings : gmap string (gmap string Holding))
  : op (gmap string (gmap string Holding)) :=
  match rsi_data with
  | [] => ret current_holdings
  | (exchange, markets) :: rest =>
      do pairs <- lift (alist_getitem rsi_sorted_pairs exchange);
      do current_holdings <-
        decide_pairs exchange markets pairs current_holdings;
      decide_exchanges rest rsi_sorted_pairs current_holdings
  end.

(** The first loop of [run]: classify and sort the pairs of every
    exchange. *)
Fixpoint classify_exchanges
    (market_data : list (string * list (string * string)))
    (rsi_data : list (string * list (string * IndicatorResult)))
    (rsi_sorted_pairs : list (string * list string))
  : result (list (string * list (string * IndicatorResult))
            * list (string * list string)) :=
  match market_data with
  | [] => Ok (rsi_data, rsi_sorted_pairs)
  | (exchange, markets) :: rest =>
      let rsi := classify_markets exchange markets in
      (do pairs <- rsi_sorted rsi;
       classify_exchanges rest
         (alist_setitem exchange rsi rsi_data)
         (alist_setitem exchange pairs rsi_sorted_pairs))%res
  end.

(** [run] *)
Definition run (market_pairs : list string) : op unit :=
  let market_data :=
    match market_pairs with
    | _ :: _ => get_symbol_markets exchange_interface market_pairs
    | [] => get_exchange_markets exchange_interface
    end in
  do classified <- lift (classify_exchanges market_data [] []);
  let '(rsi_data, rsi_sorted_pairs) := classified in
  do _ <- sweep_stale_orders;
  do current_holdings <- reconcile;
  do _ <- decide_exchanges rsi_data rsi_sorted_pairs current_holdings;
  ret tt.

End Behaviour.

(** ** Vocabulary of the properties *)

(** [current_holdings[exchange][symbol]] when both keys are present. *)
Definition holdings_lookup (holdings : gmap string (gmap string Holding))
    (exchange symbol : string) : option Holding :=
  match holdings !! exchange with
  | Some on_exchange => on_exchange !! symbol
  | None => None
  end.

(** The ledger invariant on one row. *)
Definition balanced (h : Holding) : Prop :=
  volume_total h == volume_free h + volume_used h.

(** A row carries what the exchange reports for its symbol. *)
Definition reported (account : AccountMarkets) (symbol : string) (h : Holding)
  : Prop :=
  acct_free account !! symbol = Some (volume_free h)
  /\ acct_used account !! symbol = Some (volume_used h)
  /\ acct_total account !! symbol = Some (volume_total h).

(** The base asset is absent from the holdings or its total balance is
    zero. *)
Definition base_not_held (holdings : gmap string (gmap string Holding))
    (exchange base_symbol : string) : Prop :=
  match holdings_lookup holdings exchange base_symbol with
  | None => True
  | Some base_holding => volume_total base_holding == 0
  end.

(** The condition for a BUY in the words of the spec: hot, a non-zero free
    balance of the quote asset, base asset absent or with total zero. *)
Definition spec_buy_condition (holdings : gmap string (gmap string Holding))
    (exchange base_symbol quote_symbol : string) (r : IndicatorResult)
  : Prop :=
  is_hot r = true
  /\ (exists quote_holding,
        holdings_lookup holdings exchange quote_symbol = Some quote_holding
        /\ ~ volume_free quote_holding == 0)
  /\ base_not_held holdings exchange base_symbol.

(** The condition the guards of [run] test: the quote asset's total. *)
Definition code_buy_condition (holdings : gmap string (gmap string Holding))
    (exchange base_symbol quote_symbol : string) (r : IndicatorResult)
  : Prop :=
  is_hot r = true
  /\ (exists quote_holding,
        holdings_lookup holdings exchange quote_symbol = Some quote_holding
        /\ ~ volume_total quote_holding == 0)
  /\ base_not_held holdings exchange base_symbol.

(** The most recent indicator value of a pair, 0 when there is none. *)
Definition key_of (rsi : list (string * IndicatorResult)) (x : string) : Q :=
  match first_value rsi x with
  | Ok v => v
  | Err _ => 0
  end.

(** The pairs of a list whose most recent indicator value equals [v]. *)
Definition with_value (rsi : list (string * IndicatorResult)) (v : Q)
    (pairs : list string) : list string :=
  List.filter (fun x => Qeq_bool (key_of rsi x) v) pairs.



(** Every row of [w'] is the row [w] had under the same key, or satisfies
    [P]: the rows an operation has written all satisfy [P]. *)
Definition rows_ok (P : string * string -> Holding -> Prop) (w w' : World)
  : Prop :=
  forall key,
    holdings_table w' !! key = holdings_table w !! key
    \/ exists h, holdings_table w' !! key = Some h /\ P key h.

(** An operation only writes rows that satisfy [P], whether it returns or
    raises. *)
Definition writes_only {A} (P : string * string -> Holding -> Prop)
    (c : op A) : Prop :=
  forall w, rows_ok P w (world_of (c w)).

(** A row under the key (exchange, symbol) carries what the account of that
    exchange reports for the symbol. *)
Definition as_reported (ei : ExchangeInterface) (key : string * string)
    (h : Holding) : Prop :=
  reported (get_account_markets ei key.1) key.2 h.

(** ** Scenarios

    Concrete collaborators and worlds on which the properties are run. *)

Definition simulation_config (limits : gmap string Q) : BehaviourConfig :=
  mkBehaviourConfig "backtest" 30 70 limits 1.

Definition live_config : BehaviourConfig :=
  mkBehaviourConfig "live" 30 70 ∅ 1.

Definition no_account : AccountMarkets := mkAccountMarkets ∅ ∅ ∅.

(** An exchange ["binance"] with one order book for every pair. *)
Definition one_book_exchange (book : OrderBook) : ExchangeInterface :=
  mkExchangeInterface ["binance"] (fun _ => []) [] []
    (fun _ _ => book) (fun _ => no_account).

Definition ledger (rows : list ((string * string) * Holding)) : World :=
  mkWorld (list_to_map rows) [] [].

(** A classifier that answers the same result for every pair. *)
Definition constant_analyzer (r : IndicatorResult) : StrategyAnalyzer :=
  mkStrategyAnalyzer (fun _ _ _ => Some []) (fun _ _ _ => r).

Definition epoch_clock (seconds : Q) : Clock :=
  mkClock seconds (fun t => Ok t) (fun _ => "Thu Jan  1 00:00:00 1970").

(** ["binance"] trading the single pair [market_pair], with one order book,
    one account and a list of open orders. *)
Definition one_pair_exchange (market_pair : string) (book : OrderBook)
    (account : AccountMarkets) (open_orders : list Order)
  : ExchangeInterface :=
  mkExchangeInterface ["binance"]
    (fun _ => [("binance", [(market_pair, market_pair)])])
    [("binance", [(market_pair, market_pair)])]
    [("binance", open_orders)]
    (fun _ _ => book) (fun _ => account).

(** ** Further vocabulary *)

(** The condition the guards of [run] test for a SELL: not hot, cold, and
    a base holding with a non-zero free balance. *)
Definition code_sell_condition (holdings : gmap string (gmap string Holding))
    (exchange base_symbol : string) (r : IndicatorResult) : Prop :=
  is_hot r = false
  /\ is_cold r = true
  /\ exists base_holding,
       holdings_lookup holdings exchange base_symbol = Some base_holding
       /\ ~ volume_free base_holding == 0.

(** The best price of one side of an order book. *)
Definition best_price (side : list (Q * Q)) : option Q :=
  match side with
  | (price, _) :: _ => Some price
  | [] => None
  end.

(** The row the exchange's account report gives for a symbol, when the
    report has its free, used and total volumes. *)
Definition report_row (ei : ExchangeInterface) (exchange symbol : string)
  : option Holding :=
  let account := get_account_markets ei exchange in
  match acct_free account !! symbol, acct_used account !! symbol,
        acct_total account !! symbol with
  | Some free, Some used, Some total => Some (mkHolding free used total)
  | _, _, _ => None
  end.

(** The number of ['/'] in a string. *)
Fixpoint count_slash (s : string) : nat :=
  match s with
  | EmptyString => 0
  | String c rest =>
      if Ascii.eqb c "/"%char then S (count_slash rest) else count_slash rest
  end.

(** An operation keeps the relation [R] between the world it starts in and
    the world it ends in, whether it returns or raises. *)
Definition respects {A} (R : World -> World -> Prop) (c : op A) : Prop :=
  forall w, R w (world_of (c w)).

(** What a cycle may do to the world: append transactions, add or rewrite
    holdings; it removes no holding and cancels no order. *)
Definition grows (w w' : World) : Prop :=
  (exists txs,
     transactions_table w' = (transactions_table w ++ txs)%list)
  /\ (forall key,
        is_Some (holdings_table w !! key) ->
        is_Some (holdings_table w' !! key))
  /\ cancelled_orders w' = cancelled_orders w.

(** The transactions are as they were. *)
Definition keeps_transactions (w w' : World) : Prop :=
  transactions_table w' = transactions_table w.

(** The transaction of a buy: the price is not zero, no fee is charged,
    and the base volume is the quote amount divided by the price, the very
    division [buy] computes. *)
Definition priced_buy (t : Transaction) : Prop :=
  ~ base_value t == 0
  /\ fee_rate t = 0
  /\ quote_volume t = quote_value t
  /\ base_volume t = quote_value t / base_value t.

(** The transaction of a sell: the price is not zero, no fee is charged,
    and the quote amount is the base volume times the price, the very
    product [sell] computes. *)
Definition priced_sell (t : Transaction) : Prop :=
  ~ base_value t == 0
  /\ fee_rate t = 0
  /\ quote_volume t = quote_value t
  /\ quote_value t = base_volume t * base_value t.

(** What the sweep does with one order: the exception it raises, if any.
    The timestamp is converted first; in live mode the comparison of a
    datetime with a text then raises [TypeError]. *)
Definition order_outcome (cfg : BehaviourConfig) (clock : Clock)
    (order : Order) : option exn :=
  match fromtimestamp clock (order_timestamp order) with
  | Err e => Some e
  | Ok _ => if String.eqb (mode cfg) "live" then Some TypeError else None
  end.

(** The open orders of all exchanges, in the order the sweep walks them. *)
Definition all_open_orders (ei : ExchangeInterface) : list Order :=
  concat (map snd (get_open_orders ei)).

(** The volume a trade disposes of: the free balance, capped by the trade
    limit of the symbol when one is configured. *)
Definition capped (limits : gmap string Q) (symbol : string) (free : Q)
    (volume : Q) : Prop :=
  match limits !! symbol with
  | Some limit => volume == Qmin free limit
  | None => volume = free
  end.

(** A row whose free volume is [free], its used volume kept and its total
    recomputed. *)
Definition with_free (h : Holding) (free : Q) : Holding :=
  mkHolding free (volume_used h) (free + volume_used h).

(** An operation that returns or raises [KeyError], and one that raises
    [KeyError] from every world. *)
Definition keyerror_or_done (c : op unit) : Prop :=
  forall w,
    (exists w', c w = Done tt w')
    \/ (exists key w', c w = Raised (KeyError key) w').

Definition always_keyerror (c : op unit) : Prop :=
  forall w, exists key w', c w = Raised (KeyError key) w'.

(** The cache of accounts of [__update_holdings] holds what the exchange
    answers. *)
Definition cache_sound (ei : ExchangeInterface)
    (user_account_markets : gmap string AccountMarkets) : Prop :=
  forall exchange account,
    user_account_markets !! exchange = Some account ->
    account = get_account_markets ei exchange.

(** What the classification keeps of one market: nothing when its
    historical data cannot be fetched, its key and its analysis otherwise. *)
Definition classified_entry (cfg : BehaviourConfig) (sa : StrategyAnalyzer)
    (exchange : string) (market : string * string)
  : option (string * IndicatorResult) :=
  match get_historical_data sa market.2 exchange "1d" with
  | Some data =>
      Some (market.1,
            analyze_rsi sa data (buy_rsi_threshold cfg)
              (sell_rsi_threshold cfg))
  | None => None
  end.

(** A pair that is neither hot nor cold. *)
Definition neutral (r : IndicatorResult) : Prop :=
  is_hot r = false /\ is_cold r = false.

(** ** The order of the visits *)

(** A visit of the decision loop: an exchange, its classified markets and
    the pair evaluated. *)
Definition Visit : Type := string * list (string * IndicatorResult) * string.


(** The exchanges in the order they were classified, and within an
    exchange its pairs sorted on their most recent indicator value. *)
Definition visit_order
    (rsi_data : list (string * list (string * IndicatorResult)))
  : list Visit :=
  flat_map (fun entry =>
              map (fun market_pair => (entry.1, entry.2, market_pair))
                (sorted (key_of entry.2) (map fst entry.2)))
    rsi_data.

(** What the first loop of [run] classifies: for every exchange, its
    classified markets. *)
Definition classification (cfg : BehaviourConfig) (sa : StrategyAnalyzer)
    (market_data : list (string * list (string * string)))
  : list (string * list (string * IndicatorResult)) :=
  map (fun entry => (entry.1, classify_markets cfg sa entry.1 entry.2))
    market_data.


(** The market data [run] works on. *)
Definition market_data_of (ei : ExchangeInterface) (market_pairs : list string)
  : list (string * list (string * string)) :=
  match market_pairs with
  | _ :: _ => get_symbol_markets ei market_pairs
  | [] => get_exchange_markets ei
  end.

(** ** A loop that reads the ledger before every pair *)

Fixpoint reread_pairs (cfg : BehaviourConfig) (ei : ExchangeInterface)
    (exchange : string) (markets : list (string * IndicatorResult))
    (pairs : list string) : op unit :=
  match pairs with
  | [] => ret tt
  | market_pair :: rest =>
      do current_holdings <- get_holdings;
      do _ <- decide_pair cfg ei exchange markets market_pair current_holdings;
      reread_pairs cfg ei exchange markets rest
  end.

Fixpoint reread_exchanges (cfg : BehaviourConfig) (ei : ExchangeInterface)
    (rsi_data : list (string * list (string * IndicatorResult)))
    (rsi_sorted_pairs : list (string * list string)) : op unit :=
  match rsi_data with
  | [] => ret tt
  | (exchange, markets) :: rest =>
      do pairs <- lift (alist_getitem rsi_sorted_pairs exchange);
      do _ <- reread_pairs cfg ei exchange markets pairs;
      reread_exchanges cfg ei rest rsi_sorted_pairs
  end.

(** An analyzer whose indicator value for a market is 30 for ["B/Q"] and 45
    for any other, every pair being hot. *)
Definition two_value_analyzer : StrategyAnalyzer :=
  mkStrategyAnalyzer
    (fun symbol _ _ => Some [if String.eqb symbol "B/Q" then 30 else 45])
    (fun data _ _ => mkIndicatorResult data true false).

(** ["binance"] listing A/Q before B/Q, with one order book for both. *)
Definition two_pair_exchange (book : OrderBook) : ExchangeInterface :=
  mkExchangeInterface ["binance"]
    (fun _ => [("binance", [("A/Q", "A/Q"); ("B/Q", "B/Q")])])
    [("binance", [("A/Q", "A/Q"); ("B/Q", "B/Q")])]
    []
    (fun _ _ => book) (fun _ => no_account).

(** * Properties *)

(** ** The dictionary of holdings mirrors the table *)

Lemma holdings_add_row_lookup exchange symbol row holdings exchange' symbol' :
  holdings_lookup (holdings_add_row (exchange, symbol) row holdings)
    exchange' symbol'
  = if decide ((exchange, symbol) = (exchange', symbol')) then Some row
    else holdings_lookup holdings exchange' symbol'.
Proof.
  unfold holdings_lookup, holdings_add_row.
  destruct (decide (exchange = exchange')) as [<-|Hex].
  - rewrite lookup_insert_eq.
    destruct (decide (symbol = symbol')) as [<-|Hsym].
    + rewrite lookup_insert_eq. by rewrite decide_True.
    + rewrite lookup_insert_ne by done.
      rewrite decide_False by congruence.
      destruct (holdings !! exchange) eqn:E; simpl.
      * by rewrite E.
      * by rewrite lookup_insert_eq.
  - rewrite lookup_insert_ne by done.
    rewrite decide_False by congruence.
    destruct (holdings !! exchange) eqn:E; [done|].
    by rewrite lookup_insert_ne.
Qed.

Lemma holdings_dict_lookup table exchange symbol :
  holdings_lookup (holdings_dict table) exchange symbol
  = table !! (exchange, symbol).
Proof.
  revert exchange symbol. unfold holdings_dict.
  apply (map_fold_weak_ind
           (fun d (t : gmap (string * string) Holding) =>
              forall exchange symbol,
                holdings_lookup d exchange symbol = t !! (exchange, symbol))).
  - intros exchange symbol. unfold holdings_lookup.
    by rewrite !lookup_empty.
  - intros [ex sym] row t d Hfresh IH exchange symbol.
    rewrite holdings_add_row_lookup, lookup_insert.
    case_decide; [done|apply IH].
Qed.

Lemma holdings_dict_empty : holdings_dict ∅ = ∅.
Proof. unfold holdings_dict. apply map_fold_empty. Qed.

Lemma holdings_dict_populated table :
  table <> ∅ -> dict_is_empty (holdings_dict table) = false.
Proof.
  intros Hne. unfold dict_is_empty. apply Nat.eqb_neq.
  apply map_size_non_empty_iff. intros Hempty.
  apply map_choose in Hne as ([exchange symbol] & row & Hrow).
  rewrite <- holdings_dict_lookup in Hrow.
  unfold holdings_lookup in Hrow. rewrite Hempty, lookup_empty in Hrow.
  discriminate.
Qed.

(** A missing row makes the double subscript raise [KeyError]. *)
Lemma getitem_holdings_missing holdings exchange symbol :
  holdings_lookup holdings exchange symbol = None ->
  exists key,
    (do on_exchange <- getitem holdings exchange;
     getitem on_exchange symbol)%res = Err (KeyError key).
Proof.
  unfold holdings_lookup, getitem. intros H.
  destruct (holdings !! exchange) as [on_exchange|]; simpl.
  - rewrite H. by exists symbol.
  - by exists exchange.
Qed.

Lemma getitem_holdings_present holdings exchange symbol h :
  holdings_lookup holdings exchange symbol = Some h ->
  (do on_exchange <- getitem holdings exchange;
   getitem on_exchange symbol)%res = Ok h.
Proof.
  unfold holdings_lookup, getitem. intros H.
  destruct (holdings !! exchange) as [on_exchange|]; [|done].
  simpl. by rewrite H.
Qed.

(** ** Comparisons on numbers *)

Lemma Qgtb_true x y : y < x -> Qgtb x y = true.
Proof.
  intros H. unfold Qgtb. destruct (Qle_bool x y) eqn:E; [|done].
  apply Qle_bool_iff in E. exfalso. by apply (Qlt_not_le y x).
Qed.

Lemma Qgtb_false x y : x <= y -> Qgtb x y = false.
Proof.
  intros H. unfold Qgtb. apply Qle_bool_iff in H. by rewrite H.
Qed.

Lemma Qeq_bool_false x y : ~ x == y -> Qeq_bool x y = false.
Proof.
  intros H. destruct (Qeq_bool x y) eqn:E; [|done].
  by apply Qeq_bool_iff in E.
Qed.

(** ** Missing liquidity *)

(** C8: a buy whose order book has no ask, and a sell whose order book has
    no bid, return without creating a transaction and without touching a
    holding: the world is left as it was. *)
Theorem no_liquidity_is_noop cfg ei base_symbol quote_symbol market_pair
    exchange current_holdings w :
  (asks (get_order_book ei market_pair exchange) = [] ->
   buy cfg ei base_symbol quote_symbol market_pair exchange current_holdings w
   = Done tt w)
  /\ (bids (get_order_book ei market_pair exchange) = [] ->
      sell cfg ei base_symbol quote_symbol market_pair exchange
        current_holdings w
      = Done tt w).
Proof.
  split; intros Hside.
  - unfold buy. by rewrite Hside.
  - unfold sell. by rewrite Hside.
Qed.

Lemma no_liquidity_is_noop_witness :
  let ei := one_book_exchange (mkOrderBook [] []) in
  let w := ledger [(("binance", "USDT"), mkHolding 100 0 100)] in
  buy (simulation_config ∅) ei "ETH" "USDT" "ETH/USDT" "binance"
    (holdings_dict (holdings_table w)) w = Done tt w
  /\ sell (simulation_config ∅) ei "ETH" "USDT" "ETH/USDT" "binance"
       (holdings_dict (holdings_table w)) w = Done tt w.
Proof.
  intros ei w.
  destruct (no_liquidity_is_noop (simulation_config ∅) ei "ETH" "USDT"
              "ETH/USDT" "binance" (holdings_dict (holdings_table w)) w)
    as [Hbuy Hsell].
  split; [apply Hbuy | apply Hsell]; reflexivity.
Defined.

(** ** Reconciliation *)

(** C9: with a populated ledger and a mode other than live, the
    reconciliation phase returns the dictionary of the ledger and leaves
    the world, hence every holding, as it was. *)
Theorem reconcile_simulation_populated cfg ei w :
  holdings_table w <> ∅ ->
  mode cfg <> "live" ->
  reconcile cfg ei w = Done (holdings_dict (holdings_table w)) w.
Proof.
  intros Hrows Hmode. unfold reconcile, bind, get_holdings.
  rewrite holdings_dict_populated by done.
  unfold is_live. apply String.eqb_neq in Hmode. by rewrite Hmode.
Qed.

Lemma reconcile_simulation_populated_witness :
  let w := ledger [(("binance", "USDT"), mkHolding 100 0 100)] in
  reconcile (simulation_config ∅) (one_book_exchange (mkOrderBook [] [])) w
  = Done (holdings_dict (holdings_table w)) w.
Proof.
  intros w. apply reconcile_simulation_populated.
  - intros H. apply (f_equal (fun m => m !! ("binance", "USDT"))) in H.
    vm_compute in H. discriminate H.
  - discriminate.
Defined.

(** ** Trades in simulation mode *)

(** C6: in simulation mode, with the base asset absent from the ledger, a
    quote holding whose free balance is 100, a trade limit of 40 for the
    quote asset and a best ask of 2, [buy] returns having appended exactly
    one transaction, with quote value 40 and base volume 20, and the quote
    holding's free balance is 60. *)
Theorem buy_guard cfg ei base_symbol quote_symbol market_pair exchange w
    ask size deeper limit quote_holding :
  mode cfg <> "live" ->
  asks (get_order_book ei market_pair exchange) = (ask, size) :: deeper ->
  ask == 2 ->
  trade_limits cfg !! quote_symbol = Some limit ->
  limit == 40 ->
  holdings_table w !! (exchange, base_symbol) = None ->
  holdings_table w !! (exchange, quote_symbol) = Some quote_holding ->
  volume_free quote_holding == 100 ->
  exists (t : Transaction) w' quote_holding',
    buy cfg ei base_symbol quote_symbol market_pair exchange
      (holdings_dict (holdings_table w)) w = Done tt w'
    /\ transactions_table w' = (transactions_table w ++ [t])%list
    /\ tx_action t = buy_base
    /\ quote_value t == 40
    /\ base_volume t == 20
    /\ holdings_table w' !! (exchange, quote_symbol) = Some quote_holding'
    /\ volume_free quote_holding' == 60.
Proof.
  intros Hmode Hasks Hask Hlimit Hlimit40 Hbase Hquote Hfree.
  assert (Hne : (exchange, base_symbol) <> (exchange, quote_symbol))
    by congruence.
  unfold buy. rewrite Hasks.
  rewrite Qeq_bool_false by (rewrite Hask; discriminate).
  unfold bind at 1.
  rewrite (getitem_holdings_present _ _ _ quote_holding)
    by (by rewrite holdings_dict_lookup).
  simpl. rewrite Hlimit.
  rewrite Qgtb_true by (rewrite Hfree, Hlimit40; reflexivity).
  unfold is_live. apply String.eqb_neq in Hmode. rewrite Hmode.
  unfold bind, read_holdings, create_holding, update_holding, write_holding,
    create_transaction; simpl.
  rewrite Hbase; simpl.
  rewrite lookup_insert_ne by done. rewrite Hquote; simpl.
  eexists _, _, _. split; [reflexivity|]. simpl.
  split; [reflexivity|]. split; [reflexivity|].
  split; [done|].
  split; [cbn [base_volume]; by rewrite Hlimit40, Hask|].
  split; [apply lookup_insert_eq|].
  cbn [volume_free]. by rewrite Hfree, Hlimit40.
Qed.

Lemma buy_guard_witness :
  let cfg := simulation_config {[ "USDT" := 40 ]} in
  let ei := one_book_exchange (mkOrderBook [(2, 7)] []) in
  let w := ledger [(("binance", "USDT"), mkHolding 100 0 100)] in
  exists (t : Transaction) w' quote_holding',
    buy cfg ei "ETH" "USDT" "ETH/USDT" "binance"
      (holdings_dict (holdings_table w)) w = Done tt w'
    /\ transactions_table w' = (transactions_table w ++ [t])%list
    /\ tx_action t = buy_base
    /\ quote_value t == 40
    /\ base_volume t == 20
    /\ holdings_table w' !! ("binance", "USDT") = Some quote_holding'
    /\ volume_free quote_holding' == 60.
Proof.
  intros cfg ei w.
  apply (buy_guard cfg ei "ETH" "USDT" "ETH/USDT" "binance" w
           2 7 [] 40 (mkHolding 100 0 100)).
  - discriminate.
  - reflexivity.
  - reflexivity.
  - reflexivity.
  - reflexivity.
  - reflexivity.
  - reflexivity.
  - reflexivity.
Defined.

(** C7: sell scenario of the spec, run on a ledger that holds the base asset
    only.  Free balance 10, no trade limit, best bid 5, simulation mode:
    the base holding's free balance becomes 0, then the lookup of the quote
    holding raises and no transaction is recorded. *)
Theorem sell_guard_without_quote_row :
  let cfg := simulation_config ∅ in
  let ei := one_book_exchange (mkOrderBook [] [(5, 1)]) in
  let w := ledger [(("binance", "BTC"), mkHolding 10 0 10)] in
  exists w',
    sell cfg ei "BTC" "USDT" "BTC/USDT" "binance"
      (holdings_dict (holdings_table w)) w = Raised NoResultFound w'
    /\ holdings_table w' !! ("binance", "BTC") = Some (mkHolding 0 0 0)
    /\ transactions_table w' = [].
Proof.
  intros cfg ei w. eexists. split; [vm_compute; reflexivity|].
  split; reflexivity.
Qed.

(** The same scenario on a ledger that also has a row for the quote asset
    does what the spec says. *)
Lemma sell_guard_with_quote_row :
  let cfg := simulation_config ∅ in
  let ei := one_book_exchange (mkOrderBook [] [(5, 1)]) in
  let w := ledger [(("binance", "BTC"), mkHolding 10 0 10);
                   (("binance", "USDT"), mkHolding 0 0 0)] in
  exists w',
    sell cfg ei "BTC" "USDT" "BTC/USDT" "binance"
      (holdings_dict (holdings_table w)) w = Done tt w'
    /\ holdings_table w' !! ("binance", "BTC") = Some (mkHolding 0 0 0)
    /\ holdings_table w' !! ("binance", "USDT") = Some (mkHolding 50 0 50)
    /\ transactions_table w'
       = [mkTransaction "binance" "BTC" "USDT" sell_base 5 50 0 10 50].
Proof.
  intros cfg ei w. eexists. split; [vm_compute; reflexivity|].
  repeat split; reflexivity.
Qed.

(** A buy that raises has written nothing: the only lookup that can fail
    comes before the first write, and the quote row it found is still there
    when the ledger is read again. *)
Lemma buy_raises_before_writing cfg ei base_symbol quote_symbol market_pair
    exchange w e w' :
  buy cfg ei base_symbol quote_symbol market_pair exchange
    (holdings_dict (holdings_table w)) w = Raised e w' ->
  w' = w.
Proof.
  unfold buy.
  destruct (asks _) as [|[ask size] deeper]; [discriminate|].
  destruct (Qeq_bool ask 0); [discriminate|].
  unfold bind at 1.
  destruct (holdings_table w !! (exchange, quote_symbol))
    as [quote_row|] eqn:Hquote.
  - rewrite (getitem_holdings_present _ _ _ quote_row)
      by (by rewrite holdings_dict_lookup).
    cbn [lift ret].
    destruct (is_live cfg); [discriminate|].
    unfold bind, read_holdings, create_holding, update_holding,
      write_holding, create_transaction.
    destruct (holdings_table w !! (exchange, base_symbol)) as [base_row|];
      cbn -[Qplus Qminus Qdiv];
      rewrite lookup_insert; case_decide; rewrite ?Hquote; discriminate.
  - destruct (getitem_holdings_missing (holdings_dict (holdings_table w))
                exchange quote_symbol) as [key ->].
    { by rewrite holdings_dict_lookup. }
    cbn. by intros [= _ <-].
Qed.

(** C2: a whole cycle in simulation mode over a ledger that holds 3 BTC and
    has no USDT row, with BTC/USDT classified cold and a best bid of 7.  The
    sell writes the base holding, then raises on the missing quote row: the
    cycle ends with the base holding emptied, no quote holding and no
    transaction, one side of the trade being committed alone. *)
Theorem sell_commits_one_side :
  let cfg := simulation_config ∅ in
  let ei := one_pair_exchange "BTC/USDT" (mkOrderBook [] [(7, 1)])
              no_account [] in
  let sa := constant_analyzer (mkIndicatorResult [80] false true) in
  let w := ledger [(("binance", "BTC"), mkHolding 3 0 3)] in
  exists w',
    run cfg ei sa (epoch_clock 0) [] w = Raised NoResultFound w'
    /\ holdings_table w !! ("binance", "BTC") = Some (mkHolding 3 0 3)
    /\ holdings_table w' !! ("binance", "BTC") = Some (mkHolding 0 0 0)
    /\ holdings_table w' !! ("binance", "USDT") = None
    /\ transactions_table w' = [].
Proof.
  intros cfg ei sa w. eexists. split; [vm_compute; reflexivity|].
  repeat split; reflexivity.
Qed.

(** ** The order janitor *)

(** C4: in live mode the sweep compares a datetime with the text of the
    order's time, which raises [TypeError] at the first open order, whatever
    the clock and the age of the order; when the clock cannot convert the
    order's timestamp, the conversion raises first.  Either way nothing is
    cancelled, and the exception ends the cycle before reconciliation and
    decisions. *)
Theorem live_sweep_raises (clock : Clock) (w : World) (age : Q) :
  let ei := one_pair_exchange "BTC/USDT" (mkOrderBook [] [])
              no_account [mkOrder "order-1" (now clock - age)] in
  let e := match fromtimestamp clock (now clock - age) with
           | Ok _ => TypeError
           | Err e => e
           end in
  sweep_stale_orders live_config ei clock w = Raised e w
  /\ run live_config ei (constant_analyzer (mkIndicatorResult [50] false false))
       clock [] w = Raised e w.
Proof.
  intros ei e. subst e.
  assert (Hsweep : sweep_stale_orders live_config ei clock w
                   = Raised match fromtimestamp clock (now clock - age) with
                            | Ok _ => TypeError
                            | Err e => e
                            end w).
  { unfold sweep_stale_orders, sweep_order, bind; cbn.
    by destruct (fromtimestamp clock (now clock - age)). }
  split; [exact Hsweep|].
  unfold run; cbv zeta. unfold bind at 1; cbn [lift ret].
  change (classify_exchanges _ _ _ _ _) with
    (Ok ([("binance",
           classify_markets live_config
             (constant_analyzer (mkIndicatorResult [50] false false))
             "binance" [("BTC/USDT", "BTC/USDT")])],
         [("binance", ["BTC/USDT"])])).
  cbn [lift ret]. unfold bind at 1. by rewrite Hsweep.
Qed.

(** Outside live mode the sweep does nothing at all, provided the clock can
    convert the timestamp of every open order. *)
Lemma simulation_sweep_is_noop cfg ei clock w :
  mode cfg <> "live" ->
  (forall exchange orders order,
     (exchange, orders) ∈ get_open_orders ei -> order ∈ orders ->
     exists t, fromtimestamp clock (order_timestamp order) = Ok t) ->
  sweep_stale_orders cfg ei clock w = Done tt w.
Proof.
  intros Hmode Hconvert. apply String.eqb_neq in Hmode.
  unfold sweep_stale_orders.
  induction (get_open_orders ei) as [|[exchange orders] rest IH]; [done|].
  cbn [for_each]. unfold bind at 1.
  assert (Horders : for_each orders (sweep_order cfg clock exchange) w
                    = Done tt w).
  { assert (Hin : forall order, order ∈ orders ->
                    exists t, fromtimestamp clock (order_timestamp order)
                              = Ok t).
    { intros order. apply (Hconvert exchange orders), list_elem_of_here. }
    clear Hconvert IH.
    induction orders as [|order orders IHo]; [done|].
    cbn [for_each]. unfold bind at 1, sweep_order at 1, bind at 1.
    destruct (Hin order (list_elem_of_here _ _)) as [t ->].
    cbn [lift ret]. unfold is_live. rewrite Hmode. unfold ret.
    apply IHo. intros o Ho. by apply Hin, list_elem_of_further. }
  rewrite Horders. apply IH.
  intros ex os o Hex. apply (Hconvert ex os o). by apply list_elem_of_further.
Qed.

(** ** The decision loop *)

(** C10: when a pair is classified hot and the ledger has no row for its
    quote asset on that exchange, evaluating the pair raises [KeyError] and
    the remaining pairs are not evaluated; the world is left as the loop
    found it. *)
Theorem hot_pair_without_quote_row_raises cfg ei exchange markets market_pair
    rest base_symbol quote_symbol r w :
  unpack2 (split_slash market_pair) = Ok (base_symbol, quote_symbol) ->
  alist_getitem markets market_pair = Ok r ->
  is_hot r = true ->
  holdings_table w !! (exchange, quote_symbol) = None ->
  exists key,
    decide_pairs cfg ei exchange markets (market_pair :: rest)
      (holdings_dict (holdings_table w)) w
    = Raised (KeyError key) w.
Proof.
  intros Hsplit Hr Hhot Hquote.
  destruct (getitem_holdings_missing (holdings_dict (holdings_table w))
              exchange quote_symbol) as [key Hkey].
  { by rewrite holdings_dict_lookup. }
  exists key. cbn [decide_pairs]. unfold bind at 1, decide_pair.
  rewrite Hsplit. unfold bind at 1; simpl.
  rewrite Hr. unfold bind at 1; simpl.
  unfold evaluate. rewrite Hhot.
  unfold result_bind in Hkey |- *.
  destruct (getitem (holdings_dict (holdings_table w)) exchange)
    as [on_exchange|e].
  - rewrite Hkey. reflexivity.
  - injection Hkey as ->. reflexivity.
Qed.

Lemma hot_pair_without_quote_row_raises_witness :
  let cfg := simulation_config ∅ in
  let ei := one_book_exchange (mkOrderBook [(2, 1)] []) in
  let w := ledger [(("binance", "BTC"), mkHolding 1 0 1)] in
  exists key,
    decide_pairs cfg ei "binance"
      [("ETH/USDT", mkIndicatorResult [20] true false)]
      ["ETH/USDT"; "BTC/USDT"] (holdings_dict (holdings_table w)) w
    = Raised (KeyError key) w.
Proof.
  intros cfg ei w.
  apply (hot_pair_without_quote_row_raises cfg ei "binance" _ "ETH/USDT"
           ["BTC/USDT"] "ETH" "USDT" (mkIndicatorResult [20] true false) w).
  - reflexivity.
  - reflexivity.
  - reflexivity.
  - reflexivity.
Defined.

(** The state of C10 is reached by a whole cycle: the ledger is
    bootstrapped from an account that holds BTC only, ETH/USDT is hot, and
    the cycle ends on [KeyError] for the quote symbol. *)
Example cycle_aborts_on_missing_quote_row :
  let cfg := simulation_config ∅ in
  let account := mkAccountMarkets {[ "BTC" := 1 ]} {[ "BTC" := 0 ]}
                   {[ "BTC" := 1 ]} in
  let ei := one_pair_exchange "ETH/USDT" (mkOrderBook [(2, 1)] [])
              account [] in
  let sa := constant_analyzer (mkIndicatorResult [20] true false) in
  run cfg ei sa (epoch_clock 0) [] (ledger [])
  = Raised (KeyError "USDT")
      (ledger [(("binance", "BTC"), mkHolding 1 0 1)]).
Proof. vm_compute. reflexivity. Qed.

(** C3: a whole cycle in simulation mode over a ledger whose only row is a
    quote holding entirely locked in open orders (free 0, used 5, total 5),
    with ETH/USDT classified hot and a best ask of 2.  The guard reads the
    total balance, so [buy] is called although the free balance is zero: it
    spends nothing, creates a base row of volume zero and records a
    transaction of zero amount and zero volume. *)
Theorem buy_on_locked_quote_balance :
  let cfg := simulation_config ∅ in
  let ei := one_pair_exchange "ETH/USDT" (mkOrderBook [(2, 1)] [])
              no_account [] in
  let sa := constant_analyzer (mkIndicatorResult [20] true false) in
  let w := ledger [(("binance", "USDT"), mkHolding 0 5 5)] in
  exists w' t base_holding,
    run cfg ei sa (epoch_clock 0) [] w = Done tt w'
    /\ transactions_table w' = [t]
    /\ tx_action t = buy_base
    /\ quote_value t == 0
    /\ base_volume t == 0
    /\ holdings_table w' !! ("binance", "ETH") = Some base_holding
    /\ volume_free base_holding == 0
    /\ volume_total base_holding == 0
    /\ holdings_table w !! ("binance", "ETH") = None.
Proof.
  intros cfg ei sa w. eexists _, _, _.
  split; [vm_compute; reflexivity|].
  split; [reflexivity|]. split; [reflexivity|].
  split; [reflexivity|]. split; [reflexivity|].
  split; [reflexivity|]. split; [reflexivity|].
  split; reflexivity.
Qed.

(** The guard on the quote asset reads its total balance, so a quote holding
    that is entirely locked in open orders (free 0, used 5) still triggers a
    BUY: the condition of the spec is false and the decision is BUY. *)
Lemma buy_with_no_free_quote_balance :
  let holdings :=
    holdings_dict (list_to_map [(("binance", "USDT"), mkHolding 0 5 5)]) in
  let r := mkIndicatorResult [20] true false in
  ~ (evaluate holdings "binance" "ETH" "USDT" r = Ok BUY
     <-> spec_buy_condition holdings "binance" "ETH" "USDT" r).
Proof.
  intros holdings r [Hcode _].
  destruct (Hcode eq_refl) as (_ & (quote_holding & Hrow & Hfree) & _).
  vm_compute in Hrow. injection Hrow as <-.
  apply Hfree. reflexivity.
Qed.

(** The guards of the buy branch as the code has them: a BUY is decided
    exactly when the pair is hot, the quote asset has a row whose total
    balance is non-zero, and the base asset is absent or has total balance
    zero; a pair whose base asset has a positive total balance never gets a
    BUY, whatever the quote balance. *)
Theorem buy_decision_condition holdings exchange base_symbol quote_symbol r :
  (evaluate holdings exchange base_symbol quote_symbol r = Ok BUY
   <-> code_buy_condition holdings exchange base_symbol quote_symbol r)
  /\ (forall base_holding,
        holdings_lookup holdings exchange base_symbol = Some base_holding ->
        0 < volume_total base_holding ->
        evaluate holdings exchange base_symbol quote_symbol r <> Ok BUY).
Proof.
  assert (Hiff : evaluate holdings exchange base_symbol quote_symbol r = Ok BUY
                 <-> code_buy_condition holdings exchange base_symbol
                       quote_symbol r).
  { unfold evaluate, code_buy_condition, base_not_held, holdings_lookup,
      getitem, result_bind.
    destruct (is_hot r).
    - destruct (holdings !! exchange) as [on_exchange|].
      + destruct (on_exchange !! quote_symbol) as [quote_holding|].
        * destruct (Qeq_bool (volume_total quote_holding) 0) eqn:Hq; simpl.
          -- apply Qeq_bool_iff in Hq. split; [discriminate|].
             intros (_ & (q & [= <-] & Hne) & _). by destruct Hne.
          -- apply Qeq_bool_neq in Hq.
             destruct (on_exchange !! base_symbol) as [base_holding|].
             ++ destruct (Qeq_bool (volume_total base_holding) 0) eqn:Hb.
                ** apply Qeq_bool_iff in Hb. split; [|done].
                   intros _. split; [done|]. split; [|done].
                   by exists quote_holding.
                ** apply Qeq_bool_neq in Hb. split; [discriminate|].
                   intros (_ & _ & Hzero). by destruct Hb.
             ++ split; [|done]. intros _. split; [done|]. split; [|done].
                by exists quote_holding.
        * split; [discriminate|]. intros (_ & (q & [=] & _) & _).
      + split; [discriminate|]. intros (_ & (q & [=] & _) & _).
    - split; [|intros [[=] _]].
      destruct (is_cold r); [|discriminate].
      destruct (holdings !! exchange) as [on_exchange|]; [|discriminate].
      destruct (on_exchange !! base_symbol) as [base_holding|];
        [|discriminate].
      destruct (negb (Qeq_bool (volume_free base_holding) 0)); discriminate. }
  split; [exact Hiff|].
  intros base_holding Hbase Hpos Hbuy.
  apply Hiff in Hbuy as (_ & _ & Hnot).
  unfold base_not_held in Hnot. rewrite Hbase in Hnot.
  rewrite Hnot in Hpos. by apply (Qlt_irrefl 0).
Qed.

Lemma buy_decision_condition_witness :
  let holdings :=
    holdings_dict (list_to_map [(("binance", "USDT"), mkHolding 100 0 100);
                                (("binance", "ETH"), mkHolding 2 0 2)]) in
  evaluate holdings "binance" "ETH" "USDT" (mkIndicatorResult [20] true false)
  <> Ok BUY.
Proof.
  intros holdings.
  apply (proj2 (buy_decision_condition holdings "binance" "ETH" "USDT"
                  (mkIndicatorResult [20] true false))
           (mkHolding 2 0 2)).
  - reflexivity.
  - reflexivity.
Defined.

(** ** The stable sort *)

Section Sorted.

Context {A : Type} (key : A -> Q).

Lemma insert_sorted_perm x l : insert_sorted key x l ≡ₚ x :: l.
Proof.
  induction l as [|y ys IH]; simpl; [done|].
  destruct (Qle_bool (key x) (key y)); [done|].
  rewrite IH. apply Permutation_swap.
Qed.

Lemma sorted_perm l : sorted key l ≡ₚ l.
Proof.
  unfold sorted. induction l as [|x l IH]; simpl; [done|].
  by rewrite insert_sorted_perm, IH.
Qed.

Lemma insert_sorted_StronglySorted x l :
  StronglySorted (fun a b => key a <= key b) l ->
  StronglySorted (fun a b => key a <= key b) (insert_sorted key x l).
Proof.
  induction 1 as [|y ys Hys IH Hy]; simpl.
  - constructor; [constructor|constructor].
  - destruct (Qle_bool (key x) (key y)) eqn:E.
    + apply Qle_bool_iff in E.
      constructor; [by constructor|].
      constructor; [done|].
      eapply Forall_impl; [exact Hy|].
      intros z Hz. by apply Qle_trans with (key y).
    + assert (Hyx : key y <= key x).
      { apply Qlt_le_weak, Qnot_le_lt. intros Hle.
        apply Qle_bool_iff in Hle. congruence. }
      constructor; [exact IH|].
      rewrite (insert_sorted_perm x ys). by constructor.
Qed.

Lemma sorted_StronglySorted l :
  StronglySorted (fun a b => key a <= key b) (sorted key l).
Proof.
  unfold sorted. induction l as [|x l IH]; simpl; [constructor|].
  by apply insert_sorted_StronglySorted.
Qed.

(** Stability: among the elements of one key value, insertion puts the new
    element first, which is where it stood before the ones already sorted. *)
Lemma insert_sorted_filter v x l :
  List.filter (fun a => Qeq_bool (key a) v) (insert_sorted key x l)
  = List.filter (fun a => Qeq_bool (key a) v) (x :: l).
Proof.
  induction l as [|y ys IH]; [done|].
  cbn [insert_sorted]. destruct (Qle_bool (key x) (key y)) eqn:E; [done|].
  cbn [List.filter] in IH |- *. rewrite IH.
  destruct (Qeq_bool (key x) v) eqn:Hx; [|done].
  destruct (Qeq_bool (key y) v) eqn:Hy; [|done].
  apply Qeq_bool_iff in Hx, Hy.
  assert (Hle : Qle_bool (key x) (key y) = true).
  { apply Qle_bool_iff. rewrite Hx, Hy. apply Qle_refl. }
  congruence.
Qed.

Lemma sorted_stable v l :
  List.filter (fun a => Qeq_bool (key a) v) (sorted key l)
  = List.filter (fun a => Qeq_bool (key a) v) l.
Proof.
  unfold sorted. induction l as [|x l IH]; [done|].
  cbn [foldr]. rewrite insert_sorted_filter.
  cbn [List.filter]. by rewrite IH.
Qed.

End Sorted.

(** Sorting the decorated list is sorting on the decoration. *)
Lemma insert_sorted_decorated {A} (key : A -> Q) x (l : list A) :
  insert_sorted fst (key x, x) (map (fun a => (key a, a)) l)
  = map (fun a => (key a, a)) (insert_sorted key x l).
Proof.
  induction l as [|y ys IH]; [done|].
  cbn [map insert_sorted fst].
  destruct (Qle_bool (key x) (key y)); [done|].
  cbn [map]. by rewrite IH.
Qed.

Lemma sorted_decorated {A} (key : A -> Q) (l : list A) :
  map snd (sorted fst (map (fun a => (key a, a)) l)) = sorted key l.
Proof.
  assert (H : sorted fst (map (fun a => (key a, a)) l)
              = map (fun a => (key a, a)) (sorted key l)).
  { unfold sorted. induction l as [|x l IH]; [done|].
    cbn [map foldr]. rewrite IH. apply insert_sorted_decorated. }
  rewrite H. rewrite map_map. cbn [snd]. apply map_id.
Qed.

(** ** The visiting order *)

Lemma result_map_list_ok {A B} (f : A -> result B) (g : A -> B) (l : list A) :
  (forall x, x ∈ l -> f x = Ok (g x)) ->
  result_map_list f l = Ok (map g l).
Proof.
  induction l as [|x l IH]; intros Hall; [done|].
  cbn [result_map_list map].
  rewrite Hall by apply list_elem_of_here. cbn [result_bind].
  rewrite IH; [done|].
  intros y Hy. apply Hall. by apply list_elem_of_further.
Qed.

Lemma alist_getitem_elem {V} (d : list (string * V)) (k : string) :
  k ∈ map fst d -> exists v, alist_getitem d k = Ok v /\ (k, v) ∈ d.
Proof.
  induction d as [|[k' v'] d IH]; cbn [map fst alist_getitem].
  - intros H. by apply elem_of_nil in H.
  - intros H. destruct (String.eqb_spec k' k) as [->|Hne].
    + exists v'. split; [done|apply list_elem_of_here].
    + apply elem_of_cons in H as [->|H]; [done|].
      destruct (IH H) as (v & Hv & Hin).
      exists v. split; [done|by apply list_elem_of_further].
Qed.

Lemma first_value_key_of rsi x :
  (forall y r, (y, r) ∈ rsi -> values r <> []) ->
  x ∈ map fst rsi ->
  first_value rsi x = Ok (key_of rsi x).
Proof.
  intros Hvalues Hx. unfold key_of, first_value.
  destruct (alist_getitem_elem rsi x Hx) as (r & -> & Hin).
  cbn [result_bind]. specialize (Hvalues x r Hin).
  by destruct (values r).
Qed.

Lemma rsi_sorted_ok rsi :
  (forall y r, (y, r) ∈ rsi -> values r <> []) ->
  rsi_sorted rsi = Ok (sorted (key_of rsi) (map fst rsi)).
Proof.
  intros Hvalues. unfold rsi_sorted.
  rewrite (result_map_list_ok _ (fun x => (key_of rsi x, x))).
  - cbn [result_bind]. by rewrite sorted_decorated.
  - intros x Hx. by rewrite first_value_key_of.
Qed.


(** The example of the spec: values 30, 45, 70 for A, B, C give A, B, C,
    in whatever order the pairs were classified. *)
Example visit_order_30_45_70 :
  rsi_sorted [("C", mkIndicatorResult [70; 10] false true);
              ("A", mkIndicatorResult [30; 90] true false);
              ("B", mkIndicatorResult [45] false false)]
  = Ok ["A"; "B"; "C"].
Proof. reflexivity. Qed.

(** The list the sort returns: when every classified pair has an indicator
    value, the sort returns the pairs in ascending order of their most
    recent value, pairs of equal value keeping the order in which they were
    classified. *)
Theorem visit_order_is_stable_sort rsi :
  (forall x r, (x, r) ∈ rsi -> values r <> []) ->
  exists pairs,
    rsi_sorted rsi = Ok pairs
    /\ pairs ≡ₚ map fst rsi
    /\ StronglySorted (fun x y => key_of rsi x <= key_of rsi y) pairs
    /\ forall v, with_value rsi v pairs = with_value rsi v (map fst rsi).
Proof.
  intros Hvalues. exists (sorted (key_of rsi) (map fst rsi)).
  split; [by apply rsi_sorted_ok|].
  split; [apply sorted_perm|].
  split; [apply sorted_StronglySorted|].
  intros v. apply sorted_stable.
Qed.

Lemma visit_order_is_stable_sort_witness :
  let rsi := [("B/Q", mkIndicatorResult [30] true false);
              ("C/Q", mkIndicatorResult [10] true false);
              ("A/Q", mkIndicatorResult [30] true false)] in
  exists pairs,
    rsi_sorted rsi = Ok pairs
    /\ pairs ≡ₚ map fst rsi
    /\ StronglySorted (fun x y => key_of rsi x <= key_of rsi y) pairs
    /\ forall v, with_value rsi v pairs = with_value rsi v (map fst rsi).
Proof.
  intros rsi. apply (visit_order_is_stable_sort rsi).
  intros x r Hin. unfold rsi in Hin.
  repeat (apply elem_of_cons in Hin as [[= -> ->]|Hin]; [discriminate|]).
  by apply elem_of_nil in Hin.
Defined.

(** ** The rows an operation writes *)

Section RowsWritten.

Variable P : string * string -> Holding -> Prop.

Lemma rows_ok_refl w : rows_ok P w w.
Proof. intros key. by left. Qed.

Lemma rows_ok_trans w1 w2 w3 :
  rows_ok P w1 w2 -> rows_ok P w2 w3 -> rows_ok P w1 w3.
Proof.
  intros H12 H23 key.
  destruct (H23 key) as [Hsame|Hnew]; [|by right].
  rewrite Hsame. apply H12.
Qed.

Lemma writes_only_ret {A} (a : A) : writes_only P (ret a).
Proof. intros w. apply rows_ok_refl. Qed.

Lemma writes_only_raise {A} e : writes_only P (@raise A e).
Proof. intros w. apply rows_ok_refl. Qed.

Lemma writes_only_lift {A} (r : result A) : writes_only P (lift r).
Proof. destruct r; [apply writes_only_ret|apply writes_only_raise]. Qed.

Lemma writes_only_bind {A B} (c : op A) (k : A -> op B) :
  writes_only P c -> (forall a, writes_only P (k a)) ->
  writes_only P (bind c k).
Proof.
  intros Hc Hk w. unfold bind. specialize (Hc w).
  destruct (c w) as [a w1|e w1]; [|exact Hc].
  eapply rows_ok_trans; [exact Hc|apply Hk].
Qed.

Lemma writes_only_for_each {A} (l : list A) (body : A -> op unit) :
  (forall x, x ∈ l -> writes_only P (body x)) ->
  writes_only P (for_each l body).
Proof.
  induction l as [|x l IH]; intros Hbody; [apply writes_only_ret|].
  cbn [for_each]. apply writes_only_bind.
  - apply Hbody, list_elem_of_here.
  - intros _. apply IH. intros y Hy. by apply Hbody, list_elem_of_further.
Qed.

Lemma writes_only_read_holdings exchange symbol :
  writes_only P (read_holdings exchange symbol).
Proof. intros w. apply rows_ok_refl. Qed.

Lemma writes_only_read_all_holdings : writes_only P read_all_holdings.
Proof. intros w. apply rows_ok_refl. Qed.

Lemma writes_only_one q : writes_only P (one q).
Proof. destruct q; [apply writes_only_ret|apply writes_only_raise]. Qed.

Lemma writes_only_create_transaction t :
  writes_only P (create_transaction t).
Proof. intros w key. by left. Qed.

Lemma writes_only_write_holding exchange symbol h :
  P (exchange, symbol) h -> writes_only P (write_holding exchange symbol h).
Proof.
  intros Hrow w key. cbn [write_holding world_of holdings_table].
  destruct (decide ((exchange, symbol) = key)) as [<-|Hne].
  - right. exists h. by rewrite lookup_insert_eq.
  - left. by rewrite lookup_insert_ne.
Qed.

End RowsWritten.

Lemma balanced_recomputed free used : balanced (mkHolding free used (free + used)).
Proof. unfold balanced. reflexivity. Qed.

Lemma balanced_created volume : balanced (mkHolding volume 0 volume).
Proof. unfold balanced; cbn. by rewrite Qplus_0_r. Qed.

Create HintDb rows.

#[local] Hint Resolve writes_only_ret writes_only_raise writes_only_lift
  writes_only_read_holdings writes_only_read_all_holdings writes_only_one
  writes_only_create_transaction writes_only_write_holding
  balanced_recomputed balanced_created : rows.

Lemma buy_writes_balanced cfg ei base_symbol quote_symbol market_pair exchange
    current_holdings :
  writes_only (fun _ => balanced)
    (buy cfg ei base_symbol quote_symbol market_pair exchange
       current_holdings).
Proof.
  unfold buy, create_holding, update_holding.
  destruct (asks _) as [|[ask size] deeper]; [auto with rows|].
  destruct (Qeq_bool ask 0); [auto with rows|].
  apply writes_only_bind; [auto with rows|intros quote_row].
  apply writes_only_bind; [|auto with rows].
  destruct (is_live cfg); [auto with rows|].
  apply writes_only_bind; [auto with rows|intros potential_holdings].
  apply writes_only_bind.
  - destruct (count potential_holdings); [auto with rows|].
    apply writes_only_bind; auto with rows.
  - intros _. apply writes_only_bind; [auto with rows|intros quote_query].
    apply writes_only_bind; auto with rows.
Qed.

Lemma sell_writes_balanced cfg ei base_symbol quote_symbol market_pair exchange
    current_holdings :
  writes_only (fun _ => balanced)
    (sell cfg ei base_symbol quote_symbol market_pair exchange
       current_holdings).
Proof.
  unfold sell, update_holding.
  destruct (bids _) as [|[bid size] deeper]; [auto with rows|].
  destruct (Qeq_bool bid 0); [auto with rows|].
  apply writes_only_bind; [auto with rows|intros base_row].
  apply writes_only_bind; [|auto with rows].
  destruct (is_live cfg); [auto with rows|].
  apply writes_only_bind; [auto with rows|intros base_query].
  apply writes_only_bind; [auto with rows|intros base_holding].
  apply writes_only_bind; [auto with rows|intros _].
  apply writes_only_bind; [auto with rows|intros quote_query].
  apply writes_only_bind; auto with rows.
Qed.

Lemma getitem_Ok {V} (d : gmap string V) k v :
  getitem d k = Ok v -> d !! k = Some v.
Proof. unfold getitem. destruct (d !! k); [by intros [= ->]|done]. Qed.

(** Binding a pure lookup: the continuation only runs on a value the
    lookup produced. *)
Lemma writes_only_bind_lift {A B} P (r : result A) (k : A -> op B) :
  (forall a, r = Ok a -> writes_only P (k a)) ->
  writes_only P (bind (lift r) k).
Proof.
  intros Hk. destruct r as [a|e]; intros w; unfold bind; cbn.
  - by apply Hk.
  - apply rows_ok_refl.
Qed.

Lemma create_holdings_writes_reported ei :
  writes_only (as_reported ei) (create_holdings ei).
Proof.
  unfold create_holdings, create_holding.
  apply writes_only_for_each. intros exchange _.
  apply writes_only_for_each. intros symbol _.
  apply writes_only_bind_lift. intros free Hfree.
  apply writes_only_bind_lift. intros used Hused.
  apply writes_only_bind_lift. intros total Htotal.
  apply writes_only_write_holding.
  unfold as_reported, reported; cbn.
  auto using getitem_Ok.
Qed.

Lemma update_rows_writes_reported ei rows user_account_markets :
  (forall exchange account,
     user_account_markets !! exchange = Some account ->
     account = get_account_markets ei exchange) ->
  writes_only (as_reported ei) (update_rows ei rows user_account_markets).
Proof.
  revert user_account_markets.
  induction rows as [|[[exchange symbol] row] rows IH];
    intros cache Hcache; [apply writes_only_ret|].
  cbn [update_rows].
  set (cache' := match cache !! exchange with
                 | Some _ => cache
                 | None => <[exchange := get_account_markets ei exchange]> cache
                 end).
  assert (Hcache' : forall ex account,
             cache' !! ex = Some account ->
             account = get_account_markets ei ex).
  { intros ex account. unfold cache'.
    destruct (cache !! exchange) eqn:E; [apply Hcache|].
    rewrite lookup_insert. case_decide as Hex.
    - subst ex. by intros [= <-].
    - apply Hcache. }
  apply writes_only_bind_lift. intros account Haccount.
  apply getitem_Ok, Hcache' in Haccount. subst account.
  apply writes_only_bind_lift. intros free Hfree.
  apply writes_only_bind_lift. intros used Hused.
  apply writes_only_bind_lift. intros total Htotal.
  apply writes_only_bind.
  - apply writes_only_write_holding.
    unfold as_reported, reported; cbn. auto using getitem_Ok.
  - intros _. by apply IH.
Qed.

Lemma update_holdings_writes_reported ei :
  writes_only (as_reported ei) (update_holdings ei).
Proof.
  unfold update_holdings. apply writes_only_bind; [auto with rows|].
  intros rows. apply update_rows_writes_reported.
  intros exchange account. by rewrite lookup_empty.
Qed.

(** A row that carries the exchange's report is balanced exactly when the
    report is. *)
Lemma reported_balanced account symbol h :
  reported account symbol h ->
  balanced h
  <-> exists free used total,
        acct_free account !! symbol = Some free
        /\ acct_used account !! symbol = Some used
        /\ acct_total account !! symbol = Some total
        /\ total == free + used.
Proof.
  intros (Hfree & Hused & Htotal). unfold balanced. split.
  - intros Hbalanced. by eexists _, _, _.
  - intros (free & used & total & Hf & Hu & Ht & Heq).
    rewrite Hfree in Hf. rewrite Hused in Hu. rewrite Htotal in Ht.
    injection Hf as <-. injection Hu as <-. injection Ht as <-.
    exact Heq.
Qed.

(** The bootstrap copies the exchange's total as it is: an account that
    reports free 1, used 0 and total 5 leaves a row whose total is not the
    sum of its free and used volumes. *)
Lemma bootstrap_row_not_balanced :
  let account := mkAccountMarkets {[ "BTC" := 1 ]} {[ "BTC" := 0 ]}
                   {[ "BTC" := 5 ]} in
  let ei := one_pair_exchange "BTC/USDT" (mkOrderBook [] []) account [] in
  exists w' h,
    create_holdings ei (ledger []) = Done tt w'
    /\ holdings_table w' !! ("binance", "BTC") = Some h
    /\ ~ balanced h.
Proof.
  intros account ei. eexists _, _.
  split; [vm_compute; reflexivity|].
  split; [reflexivity|].
  unfold balanced; cbn. discriminate.
Qed.

(** C1 (amended): every row that a buy or a sell writes satisfies
    total == free + used, whether the operation returns or raises; every
    row that the bootstrap or the live re-sync writes carries the free, used
    and total volumes the exchange reports for that exchange and symbol. *)
Theorem written_rows :
  (forall cfg ei base_symbol quote_symbol market_pair exchange
          current_holdings,
     writes_only (fun _ => balanced)
       (buy cfg ei base_symbol quote_symbol market_pair exchange
          current_holdings)
     /\ writes_only (fun _ => balanced)
          (sell cfg ei base_symbol quote_symbol market_pair exchange
             current_holdings))
  /\ (forall ei,
        writes_only (as_reported ei) (create_holdings ei)
        /\ writes_only (as_reported ei) (update_holdings ei)).
Proof.
  split.
  - intros. split; [apply buy_writes_balanced|apply sell_writes_balanced].
  - intros. split; [apply create_holdings_writes_reported
                   |apply update_holdings_writes_reported].
Qed.

(** * Further properties of the cycle *)

(** ** The dictionary of holdings *)

Lemma holdings_dict_inner_populated table exchange on_exchange :
  holdings_dict table !! exchange = Some on_exchange ->
  exists symbol row, on_exchange !! symbol = Some row.
Proof.
  revert exchange on_exchange. unfold holdings_dict.
  apply (map_fold_weak_ind
           (fun d (t : gmap (string * string) Holding) =>
              forall exchange on_exchange,
                d !! exchange = Some on_exchange ->
                exists symbol row, on_exchange !! symbol = Some row)).
  - intros exchange on_exchange. by rewrite lookup_empty.
  - intros [ex sym] row t d Hfresh IH exchange on_exchange.
    unfold holdings_add_row.
    destruct (decide (ex = exchange)) as [->|Hne].
    + rewrite lookup_insert_eq. intros [= <-].
      exists sym, row. apply lookup_insert_eq.
    + rewrite lookup_insert_ne by done.
      destruct (d !! ex); [apply IH|].
      rewrite lookup_insert_ne by done. apply IH.
Qed.

Lemma holdings_dict_exchange table exchange :
  holdings_dict table !! exchange = None
  <-> forall symbol, table !! (exchange, symbol) = None.
Proof.
  split.
  - intros Hnone symbol. rewrite <- holdings_dict_lookup.
    unfold holdings_lookup. by rewrite Hnone.
  - intros Hrows.
    destruct (holdings_dict table !! exchange) as [on_exchange|] eqn:E;
      [|done].
    destruct (holdings_dict_inner_populated _ _ _ E) as (symbol & row & Hrow).
    specialize (Hrows symbol). rewrite <- holdings_dict_lookup in Hrows.
    unfold holdings_lookup in Hrows. rewrite E in Hrows. congruence.
Qed.

(** X1: [__get_holdings] returns, leaves the world as it is, and answers a
    dictionary that mirrors the table: the entry under an exchange and a
    symbol is the row of that key, and an exchange is a key of the
    dictionary exactly when the table has a row for it. *)
Theorem get_holdings_mirrors_table w :
  exists d,
    get_holdings w = Done d w
    /\ (forall exchange symbol,
          holdings_lookup d exchange symbol
          = holdings_table w !! (exchange, symbol))
    /\ (forall exchange,
          d !! exchange = None
          <-> forall symbol, holdings_table w !! (exchange, symbol) = None).
Proof.
  exists (holdings_dict (holdings_table w)). split; [done|].
  split; [apply holdings_dict_lookup|apply holdings_dict_exchange].
Qed.

(** ** The guards of the decision loop *)

(** X2: a SELL is decided exactly when the pair is not hot, is cold, and the
    base asset has a row whose free balance is non-zero; a pair that is both
    hot and cold is never sold. *)
Theorem sell_decision_condition holdings exchange base_symbol quote_symbol r :
  evaluate holdings exchange base_symbol quote_symbol r = Ok SELL
  <-> code_sell_condition holdings exchange base_symbol r.
Proof.
  unfold evaluate, code_sell_condition, holdings_lookup, getitem, result_bind.
  destruct (is_hot r).
  - split; [|by intros [[=] _]].
    destruct (holdings !! exchange) as [on_exchange|]; [|discriminate].
    destruct (on_exchange !! quote_symbol) as [quote_holding|];
      [|discriminate].
    destruct (negb (Qeq_bool (volume_total quote_holding) 0));
      [|discriminate].
    destruct (on_exchange !! base_symbol) as [base_holding|];
      [|discriminate].
    destruct (Qeq_bool (volume_total base_holding) 0); discriminate.
  - destruct (is_cold r).
    + destruct (holdings !! exchange) as [on_exchange|].
      * destruct (on_exchange !! base_symbol) as [base_holding|].
        -- destruct (Qeq_bool (volume_free base_holding) 0) eqn:Hb; simpl.
           ++ apply Qeq_bool_iff in Hb. split; [discriminate|].
              intros (_ & _ & b & [= <-] & Hne). by destruct Hne.
           ++ apply Qeq_bool_neq in Hb. split; [|done].
              intros _. split; [done|]. split; [done|].
              by exists base_holding.
        -- split; [discriminate|]. intros (_ & _ & b & [=] & _).
      * split; [discriminate|]. intros (_ & _ & b & [=] & _).
    + split; [discriminate|]. intros (_ & [=] & _).
Qed.

(** X3: when the ledger has no row at all for an exchange, the first pair of
    that exchange that is hot or cold ends the loop on [KeyError] for the
    exchange, the world being left as it was: neither guard checks that the
    exchange is a key of the holdings. *)
Theorem pair_on_exchange_without_rows_raises cfg ei exchange markets
    market_pair rest base_symbol quote_symbol r w :
  unpack2 (split_slash market_pair) = Ok (base_symbol, quote_symbol) ->
  alist_getitem markets market_pair = Ok r ->
  is_hot r = true \/ is_cold r = true ->
  (forall symbol, holdings_table w !! (exchange, symbol) = None) ->
  decide_pairs cfg ei exchange markets (market_pair :: rest)
    (holdings_dict (holdings_table w)) w
  = Raised (KeyError exchange) w.
Proof.
  intros Hsplit Hr Hclass Hrows.
  apply holdings_dict_exchange in Hrows.
  cbn [decide_pairs]. unfold bind at 1, decide_pair.
  rewrite Hsplit. unfold bind at 1; simpl.
  rewrite Hr. unfold bind at 1; simpl.
  unfold evaluate, getitem. rewrite Hrows.
  destruct (is_hot r); [done|].
  destruct Hclass as [[=]| ->]. done.
Qed.

Lemma pair_on_exchange_without_rows_raises_witness :
  let cfg := simulation_config ∅ in
  let ei := one_book_exchange (mkOrderBook [] [(5, 1)]) in
  let w := ledger [(("kraken", "BTC"), mkHolding 1 0 1)] in
  decide_pairs cfg ei "binance"
    [("BTC/USDT", mkIndicatorResult [80] false true)]
    ["BTC/USDT"] (holdings_dict (holdings_table w)) w
  = Raised (KeyError "binance") w.
Proof.
  intros cfg ei w.
  apply (pair_on_exchange_without_rows_raises cfg ei "binance" _ "BTC/USDT"
           [] "BTC" "USDT" (mkIndicatorResult [80] false true) w).
  - reflexivity.
  - reflexivity.
  - by right.
  - intros symbol. unfold w, ledger; cbn [holdings_table list_to_map foldr].
    apply lookup_insert_None. split; [apply lookup_empty|discriminate].
Defined.

(** ** Relations every step of an operation keeps *)

Section Respects.

Context (R : World -> World -> Prop).
Hypothesis R_refl : forall w, R w w.
Hypothesis R_trans : forall w1 w2 w3, R w1 w2 -> R w2 w3 -> R w1 w3.

Lemma respects_ret {A} (a : A) : respects R (ret a).
Proof. intros w. apply R_refl. Qed.

Lemma respects_raise {A} e : respects R (@raise A e).
Proof. intros w. apply R_refl. Qed.

Lemma respects_lift {A} (r : result A) : respects R (lift r).
Proof. destruct r; [apply respects_ret|apply respects_raise]. Qed.

Lemma respects_bind {A B} (c : op A) (k : A -> op B) :
  respects R c -> (forall a, respects R (k a)) -> respects R (bind c k).
Proof.
  intros Hc Hk w. unfold bind. specialize (Hc w).
  destruct (c w) as [a w1|e w1]; [|exact Hc].
  eapply R_trans; [exact Hc|apply Hk].
Qed.

Lemma respects_bind_lift {A B} (r : result A) (k : A -> op B) :
  (forall a, r = Ok a -> respects R (k a)) ->
  respects R (bind (lift r) k).
Proof.
  intros Hk. destruct r as [a|e]; intros w; unfold bind; cbn.
  - by apply Hk.
  - apply R_refl.
Qed.

Lemma respects_for_each {A} (l : list A) (body : A -> op unit) :
  (forall x, respects R (body x)) -> respects R (for_each l body).
Proof.
  intros Hbody. induction l as [|x l IH]; [apply respects_ret|].
  cbn [for_each]. apply respects_bind; [apply Hbody|by intros _].
Qed.

Lemma respects_read_holdings exchange symbol :
  respects R (read_holdings exchange symbol).
Proof. intros w. apply R_refl. Qed.

Lemma respects_read_all_holdings : respects R read_all_holdings.
Proof. intros w. apply R_refl. Qed.

Lemma respects_one q : respects R (one q).
Proof. destruct q; [apply respects_ret|apply respects_raise]. Qed.

Lemma respects_get_holdings : respects R get_holdings.
Proof. intros w. apply R_refl. Qed.

End Respects.

Lemma keeps_transactions_write_holding exchange symbol h :
  respects keeps_transactions (write_holding exchange symbol h).
Proof. by intros w. Qed.

(** The ledger part of a trade, in either mode, leaves the transactions
    alone. *)
Lemma keeps_transactions_trans w1 w2 w3 :
  keeps_transactions w1 w2 -> keeps_transactions w2 w3 ->
  keeps_transactions w1 w3.
Proof. unfold keeps_transactions. congruence. Qed.

Create HintDb effects.

#[local] Hint Resolve respects_ret respects_raise respects_lift
  respects_read_holdings respects_read_all_holdings respects_one
  respects_get_holdings keeps_transactions_write_holding
  keeps_transactions_trans : effects.

Lemma keeps_transactions_refl w : keeps_transactions w w.
Proof. reflexivity. Qed.

#[local] Hint Resolve keeps_transactions_refl : effects.

(** The ledger part of [buy] and of [sell]: reads, [one()] and writes of
    holdings, which leave the transactions alone. *)
Ltac keeps_transactions_steps :=
  repeat first
    [ solve [auto with effects]
    | apply (respects_bind keeps_transactions keeps_transactions_trans)
    | match goal with |- forall _, respects _ _ => intro end ].

Lemma lift_done {A} (r : result A) w a w' :
  lift r w = Done a w' -> r = Ok a /\ w' = w.
Proof. destruct r; cbn; [by intros [= <- <-]|discriminate]. Qed.

Lemma lift_raised {A} (r : result A) w e w' :
  lift r w = Raised e w' -> r = Err e /\ w' = w.
Proof. destruct r; cbn; [discriminate|by intros [= <- <-]]. Qed.

(** A step that keeps the transactions, followed by the recording of [t]:
    the transactions are as before when the step raises, and one longer,
    by [t], when it returns. *)
Lemma record_after_step (step : op unit) (t : Transaction) w :
  respects keeps_transactions step ->
  (exists e w',
     bind step (fun _ => create_transaction t) w = Raised e w'
     /\ transactions_table w' = transactions_table w)
  \/ (exists w',
        bind step (fun _ => create_transaction t) w = Done tt w'
        /\ transactions_table w' = (transactions_table w ++ [t])%list).
Proof.
  intros Hstep. specialize (Hstep w). unfold bind.
  destruct (step w) as [[] w1|e w1]; cbn in *.
  - right. eexists. split; [done|]. cbn. by rewrite Hstep.
  - left. by exists e, w1.
Qed.

(** X4: whatever the mode and the holdings passed in, a buy and a sell
    either leave the transactions as they were, or return having appended
    exactly one transaction, of their own action, whose price is not zero,
    whose fee is zero and whose quote volume is its quote value; the base
    volume of a buy is its quote value divided by the price, and the quote
    value of a sell is its base volume times the price.  A trade that
    raises records nothing. *)
Theorem trade_records_priced_transaction cfg ei base_symbol quote_symbol
    market_pair exchange current_holdings w :
  (let o := buy cfg ei base_symbol quote_symbol market_pair exchange
              current_holdings w in
   transactions_table (world_of o) = transactions_table w
   \/ exists t,
        o = Done tt (world_of o)
        /\ transactions_table (world_of o)
           = (transactions_table w ++ [t])%list
        /\ tx_action t = buy_base /\ priced_buy t)
  /\ (let o := sell cfg ei base_symbol quote_symbol market_pair exchange
                 current_holdings w in
      transactions_table (world_of o) = transactions_table w
      \/ exists t,
           o = Done tt (world_of o)
           /\ transactions_table (world_of o)
              = (transactions_table w ++ [t])%list
           /\ tx_action t = sell_base /\ priced_sell t).
Proof.
  split; cbv zeta.
  - remember (buy cfg ei base_symbol quote_symbol market_pair exchange
                current_holdings w) as o eqn:Ho.
    symmetry in Ho. unfold buy in Ho; cbv zeta in Ho.
    destruct (asks _) as [|[ask size] deeper]; [subst o; by left|].
    destruct (Qeq_bool ask 0) eqn:Hask; [subst o; by left|].
    apply Qeq_bool_neq in Hask.
    unfold bind at 1 in Ho.
    destruct (lift _ w) as [quote_row w0|e w0] eqn:Hlookup.
    2:{ apply lift_raised in Hlookup as [_ ->]. subst o. by left. }
    apply lift_done in Hlookup as [_ ->].
    match type of Ho with
    | bind ?step (fun _ => create_transaction ?t) w = _ =>
        destruct (record_after_step step t w)
          as [(e & w' & Heq & Htx)|(w' & Heq & Htx)]
    end.
    + destruct (is_live cfg); [auto with effects|].
      unfold create_holding, update_holding.
      apply (respects_bind keeps_transactions keeps_transactions_trans);
        [auto with effects|intros potential].
      apply (respects_bind keeps_transactions keeps_transactions_trans).
      * destruct (count potential); keeps_transactions_steps.
      * keeps_transactions_steps.
    + rewrite Heq in Ho. subst o. cbn [world_of]. left. exact Htx.
    + rewrite Heq in Ho. subst o. cbn [world_of]. right.
      eexists. split; [reflexivity|]. split; [exact Htx|].
      split; [reflexivity|]. unfold priced_buy; cbn.
      split; [exact Hask|]. split; [reflexivity|]. split; reflexivity.
  - remember (sell cfg ei base_symbol quote_symbol market_pair exchange
                current_holdings w) as o eqn:Ho.
    symmetry in Ho. unfold sell in Ho; cbv zeta in Ho.
    destruct (bids _) as [|[bid size] deeper]; [subst o; by left|].
    destruct (Qeq_bool bid 0) eqn:Hbid; [subst o; by left|].
    apply Qeq_bool_neq in Hbid.
    unfold bind at 1 in Ho.
    destruct (lift _ w) as [base_row w0|e w0] eqn:Hlookup.
    2:{ apply lift_raised in Hlookup as [_ ->]. subst o. by left. }
    apply lift_done in Hlookup as [_ ->].
    match type of Ho with
    | bind ?step (fun _ => create_transaction ?t) w = _ =>
        destruct (record_after_step step t w)
          as [(e & w' & Heq & Htx)|(w' & Heq & Htx)]
    end.
    + destruct (is_live cfg); [auto with effects|].
      unfold update_holding. keeps_transactions_steps.
    + rewrite Heq in Ho. subst o. cbn [world_of]. left. exact Htx.
    + rewrite Heq in Ho. subst o. cbn [world_of]. right.
      eexists. split; [reflexivity|]. split; [exact Htx|].
      split; [reflexivity|]. unfold priced_sell; cbn.
      split; [exact Hbid|]. split; [reflexivity|]. split; reflexivity.
Qed.

(** ** Trades *)

Lemma Qgtb_spec x y : if Qgtb x y then y < x else x <= y.
Proof.
  unfold Qgtb. destruct (Qle_bool x y) eqn:E; cbn.
  - by apply Qle_bool_iff.
  - apply Qnot_le_lt. intros H. apply Qle_bool_iff in H. congruence.
Qed.

Lemma capped_volume limits symbol free :
  capped limits symbol free
    match limits !! symbol with
    | Some limit => if Qgtb free limit then limit else free
    | None => free
    end.
Proof.
  unfold capped. destruct (limits !! symbol) as [limit|]; [|done].
  pose proof (Qgtb_spec free limit) as H.
  destruct (Qgtb free limit).
  - symmetry. apply Q.min_r. by apply Qlt_le_weak.
  - symmetry. by apply Q.min_l.
Qed.

(** X5: a best ask of zero makes [buy], and a best bid of zero makes
    [sell], return without a transaction and without touching a holding: no
    volume is ever divided by a zero price. *)
Theorem zero_price_is_noop cfg ei base_symbol quote_symbol market_pair
    exchange current_holdings w price :
  price == 0 ->
  (best_price (asks (get_order_book ei market_pair exchange)) = Some price ->
   buy cfg ei base_symbol quote_symbol market_pair exchange current_holdings w
   = Done tt w)
  /\ (best_price (bids (get_order_book ei market_pair exchange)) = Some price ->
      sell cfg ei base_symbol quote_symbol market_pair exchange
        current_holdings w
      = Done tt w).
Proof.
  intros Hzero. apply Qeq_bool_iff in Hzero. split; intros Hbest.
  - unfold buy. destruct (asks _) as [|[p size] deeper]; [done|].
    injection Hbest as ->. by rewrite Hzero.
  - unfold sell. destruct (bids _) as [|[p size] deeper]; [done|].
    injection Hbest as ->. by rewrite Hzero.
Qed.

Lemma zero_price_is_noop_witness :
  let ei := one_book_exchange (mkOrderBook [(0, 3)] [(0, 3)]) in
  let w := ledger [(("binance", "USDT"), mkHolding 100 0 100)] in
  buy (simulation_config ∅) ei "ETH" "USDT" "ETH/USDT" "binance"
    (holdings_dict (holdings_table w)) w = Done tt w
  /\ sell (simulation_config ∅) ei "ETH" "USDT" "ETH/USDT" "binance"
       (holdings_dict (holdings_table w)) w = Done tt w.
Proof.
  intros ei w.
  destruct (zero_price_is_noop (simulation_config ∅) ei "ETH" "USDT"
              "ETH/USDT" "binance" (holdings_dict (holdings_table w)) w 0)
    as [Hbuy Hsell].
  - reflexivity.
  - split; [apply Hbuy | apply Hsell]; reflexivity.
Defined.

(** X6: a buy in simulation mode, with a best ask that is not zero, a row
    for the quote asset and distinct base and quote symbols, returns.  It
    spends the quote asset's free balance capped by the quote symbol's trade
    limit; the quote row loses that amount of free volume, the base row
    gains the amount divided by the ask (a missing base row is created with
    used volume 0), no other row changes, and one transaction is appended
    that records the ask, the amount spent and the volume bought. *)
Theorem buy_in_simulation cfg ei base_symbol quote_symbol market_pair exchange
    w ask quote_holding :
  mode cfg <> "live" ->
  best_price (asks (get_order_book ei market_pair exchange)) = Some ask ->
  ~ ask == 0 ->
  holdings_table w !! (exchange, quote_symbol) = Some quote_holding ->
  base_symbol <> quote_symbol ->
  exists spent,
    capped (trade_limits cfg) quote_symbol (volume_free quote_holding) spent
    /\ buy cfg ei base_symbol quote_symbol market_pair exchange
         (holdings_dict (holdings_table w)) w
       = Done tt
           (mkWorld
              (<[(exchange, quote_symbol) :=
                   with_free quote_holding
                     (volume_free quote_holding - spent)]>
                 (<[(exchange, base_symbol) :=
                      match holdings_table w !! (exchange, base_symbol) with
                      | Some base_holding =>
                          with_free base_holding
                            (volume_free base_holding + spent / ask)
                      | None => mkHolding (spent / ask) 0 (spent / ask)
                      end]>
                    (holdings_table w)))
              (transactions_table w
               ++ [mkTransaction exchange base_symbol quote_symbol buy_base
                     ask spent 0 (spent / ask) spent])
              (cancelled_orders w)).
Proof.
  intros Hmode Hbest Hask Hquote Hne.
  eexists. split; [apply capped_volume|].
  unfold buy. destruct (asks _) as [|[p size] deeper]; [done|].
  injection Hbest as ->.
  rewrite Qeq_bool_false by done.
  unfold bind at 1.
  rewrite (getitem_holdings_present _ _ _ quote_holding)
    by (by rewrite holdings_dict_lookup).
  cbn [lift ret]. cbv zeta.
  unfold is_live. apply String.eqb_neq in Hmode. rewrite Hmode.
  unfold bind, read_holdings, create_holding, update_holding, write_holding,
    create_transaction.
  destruct (holdings_table w !! (exchange, base_symbol)) as [base_holding|];
    cbn [count one ret holdings_table transactions_table cancelled_orders];
    rewrite lookup_insert_ne by congruence; rewrite Hquote;
    reflexivity.
Qed.

Lemma buy_in_simulation_witness :
  let cfg := simulation_config {[ "USDT" := 40 ]} in
  let ei := one_book_exchange (mkOrderBook [(2, 7)] []) in
  let w := ledger [(("binance", "USDT"), mkHolding 100 3 103);
                   (("binance", "ETH"), mkHolding 1 0 1)] in
  exists spent,
    capped (trade_limits cfg) "USDT" 100 spent
    /\ buy cfg ei "ETH" "USDT" "ETH/USDT" "binance"
         (holdings_dict (holdings_table w)) w
       = Done tt
           (mkWorld
              (<[("binance", "USDT") :=
                   with_free (mkHolding 100 3 103) (100 - spent)]>
                 (<[("binance", "ETH") :=
                      match holdings_table w !! ("binance", "ETH") with
                      | Some base_holding =>
                          with_free base_holding
                            (volume_free base_holding + spent / 2)
                      | None => mkHolding (spent / 2) 0 (spent / 2)
                      end]>
                    (holdings_table w)))
              (transactions_table w
               ++ [mkTransaction "binance" "ETH" "USDT" buy_base
                     2 spent 0 (spent / 2) spent])
              (cancelled_orders w)).
Proof.
  intros cfg ei w.
  apply (buy_in_simulation cfg ei "ETH" "USDT" "ETH/USDT" "binance" w 2
           (mkHolding 100 3 103)).
  - discriminate.
  - reflexivity.
  - discriminate.
  - reflexivity.
  - discriminate.
Defined.

(** X7: a sell in simulation mode, with a best bid that is not zero, rows
    for both assets and distinct base and quote symbols, returns.  It sells
    the base asset's free balance capped by the trade limit configured for
    the base symbol; the base row loses that volume, the quote row gains
    the volume times the bid, no other row changes, and one transaction is
    appended that records the bid, the volume sold and the amount
    received. *)
Theorem sell_in_simulation cfg ei base_symbol quote_symbol market_pair
    exchange w bid base_holding quote_holding :
  mode cfg <> "live" ->
  best_price (bids (get_order_book ei market_pair exchange)) = Some bid ->
  ~ bid == 0 ->
  holdings_table w !! (exchange, base_symbol) = Some base_holding ->
  holdings_table w !! (exchange, quote_symbol) = Some quote_holding ->
  base_symbol <> quote_symbol ->
  exists sold,
    capped (trade_limits cfg) base_symbol (volume_free base_holding) sold
    /\ sell cfg ei base_symbol quote_symbol market_pair exchange
         (holdings_dict (holdings_table w)) w
       = Done tt
           (mkWorld
              (<[(exchange, quote_symbol) :=
                   with_free quote_holding
                     (volume_free quote_holding + sold * bid)]>
                 (<[(exchange, base_symbol) :=
                      with_free base_holding
                        (volume_free base_holding - sold)]>
                    (holdings_table w)))
              (transactions_table w
               ++ [mkTransaction exchange base_symbol quote_symbol sell_base
                     bid (sold * bid) 0 sold (sold * bid)])
              (cancelled_orders w)).
Proof.
  intros Hmode Hbest Hbid Hbase Hquote Hne.
  eexists. split; [apply capped_volume|].
  unfold sell. destruct (bids _) as [|[p size] deeper]; [done|].
  injection Hbest as ->.
  rewrite Qeq_bool_false by done.
  unfold bind at 1.
  rewrite (getitem_holdings_present _ _ _ base_holding)
    by (by rewrite holdings_dict_lookup).
  cbn [lift ret]. cbv zeta.
  unfold is_live. apply String.eqb_neq in Hmode. rewrite Hmode.
  unfold bind, read_holdings, update_holding, write_holding,
    create_transaction.
  rewrite Hbase.
  cbn [one ret holdings_table transactions_table cancelled_orders].
  rewrite lookup_insert_ne by congruence. rewrite Hquote.
  reflexivity.
Qed.

Lemma sell_in_simulation_witness :
  let cfg := simulation_config {[ "BTC" := 4 ]} in
  let ei := one_book_exchange (mkOrderBook [] [(5, 1)]) in
  let w := ledger [(("binance", "BTC"), mkHolding 10 0 10);
                   (("binance", "USDT"), mkHolding 1 0 1)] in
  exists sold,
    capped (trade_limits cfg) "BTC" 10 sold
    /\ sell cfg ei "BTC" "USDT" "BTC/USDT" "binance"
         (holdings_dict (holdings_table w)) w
       = Done tt
           (mkWorld
              (<[("binance", "USDT") :=
                   with_free (mkHolding 1 0 1) (1 + sold * 5)]>
                 (<[("binance", "BTC") :=
                      with_free (mkHolding 10 0 10) (10 - sold)]>
                    (holdings_table w)))
              (transactions_table w
               ++ [mkTransaction "binance" "BTC" "USDT" sell_base
                     5 (sold * 5) 0 sold (sold * 5)])
              (cancelled_orders w)).
Proof.
  intros cfg ei w.
  apply (sell_in_simulation cfg ei "BTC" "USDT" "BTC/USDT" "binance" w 5
           (mkHolding 10 0 10) (mkHolding 1 0 1)).
  - discriminate.
  - reflexivity.
  - discriminate.
  - reflexivity.
  - reflexivity.
  - discriminate.
Defined.

(** X8: in live mode a buy and a sell that find a price and the holding they
    dispose of write no holding at all and still append one transaction of
    their action: the ledger is left to the next re-sync. *)
Theorem live_trade_records_without_writing cfg ei base_symbol quote_symbol
    market_pair exchange current_holdings w price holding :
  mode cfg = "live" ->
  ~ price == 0 ->
  (best_price (asks (get_order_book ei market_pair exchange)) = Some price ->
   holdings_lookup current_holdings exchange quote_symbol = Some holding ->
   exists t,
     buy cfg ei base_symbol quote_symbol market_pair exchange
       current_holdings w
     = Done tt
         (mkWorld (holdings_table w) (transactions_table w ++ [t])
            (cancelled_orders w))
     /\ tx_action t = buy_base)
  /\ (best_price (bids (get_order_book ei market_pair exchange)) = Some price ->
      holdings_lookup current_holdings exchange base_symbol = Some holding ->
      exists t,
        sell cfg ei base_symbol quote_symbol market_pair exchange
          current_holdings w
        = Done tt
            (mkWorld (holdings_table w) (transactions_table w ++ [t])
               (cancelled_orders w))
        /\ tx_action t = sell_base).
Proof.
  intros Hmode Hprice. apply String.eqb_eq in Hmode.
  split; intros Hbest Hrow.
  - unfold buy. destruct (asks _) as [|[p size] deeper]; [done|].
    injection Hbest as ->. rewrite Qeq_bool_false by done.
    unfold bind at 1.
    rewrite (getitem_holdings_present _ _ _ holding) by done.
    cbn [lift ret]. cbv zeta. unfold is_live. rewrite Hmode.
    eexists. split; reflexivity.
  - unfold sell. destruct (bids _) as [|[p size] deeper]; [done|].
    injection Hbest as ->. rewrite Qeq_bool_false by done.
    unfold bind at 1.
    rewrite (getitem_holdings_present _ _ _ holding) by done.
    cbn [lift ret]. cbv zeta. unfold is_live. rewrite Hmode.
    eexists. split; reflexivity.
Qed.

Lemma live_trade_records_without_writing_witness :
  let ei := one_book_exchange (mkOrderBook [(2, 1)] [(2, 1)]) in
  let w := ledger [(("binance", "USDT"), mkHolding 100 0 100)] in
  exists t,
    buy live_config ei "ETH" "USDT" "ETH/USDT" "binance"
      (holdings_dict (holdings_table w)) w
    = Done tt
        (mkWorld (holdings_table w) (transactions_table w ++ [t])
           (cancelled_orders w))
    /\ tx_action t = buy_base.
Proof.
  intros ei w.
  apply (live_trade_records_without_writing live_config ei "ETH" "USDT"
           "ETH/USDT" "binance" (holdings_dict (holdings_table w)) w 2
           (mkHolding 100 0 100)).
  - reflexivity.
  - discriminate.
  - reflexivity.
  - reflexivity.
Defined.

(** ** The sweep of open orders *)

Lemma sweep_order_outcome cfg clock exchange order w :
  sweep_order cfg clock exchange order w
  = match order_outcome cfg clock order with
    | Some e => Raised e w
    | None => Done tt w
    end.
Proof.
  unfold sweep_order, order_outcome, bind, is_live.
  destruct (fromtimestamp clock (order_timestamp order)); cbn; [|done].
  by destruct (String.eqb (mode cfg) "live").
Qed.

Lemma sweep_orders_outcome cfg clock exchange orders w :
  for_each orders (sweep_order cfg clock exchange) w
  = match head (omap (order_outcome cfg clock) orders) with
    | Some e => Raised e w
    | None => Done tt w
    end.
Proof.
  induction orders as [|order orders IH]; [done|].
  cbn [for_each omap list_omap]. unfold bind.
  rewrite sweep_order_outcome.
  destruct (order_outcome cfg clock order); [done|exact IH].
Qed.

(** The sweep ends on the exception of the first order that raises one, and
    returns when none does; the world is as it was either way. *)
Lemma sweep_outcome cfg ei clock w :
  sweep_stale_orders cfg ei clock w
  = match head (omap (order_outcome cfg clock) (all_open_orders ei)) with
    | Some e => Raised e w
    | None => Done tt w
    end.
Proof.
  unfold sweep_stale_orders, all_open_orders.
  induction (get_open_orders ei) as [|[exchange orders] rest IH]; [done|].
  cbn [for_each map concat snd]. unfold bind.
  rewrite sweep_orders_outcome, omap_app.
  destruct (omap (order_outcome cfg clock) orders) as [|e errors];
    [exact IH|done].
Qed.

Lemma sweep_world cfg ei clock w :
  world_of (sweep_stale_orders cfg ei clock w) = w.
Proof.
  rewrite sweep_outcome. by destruct (head _).
Qed.


(** ** The reconciler *)

Lemma getitem_Some {V} (d : gmap string V) k v :
  d !! k = Some v -> getitem d k = Ok v.
Proof. unfold getitem. by intros ->. Qed.

Lemma getitem_None {V} (d : gmap string V) k :
  d !! k = None -> getitem d k = Err (KeyError k).
Proof. unfold getitem. by intros ->. Qed.

(** Copying one symbol of an account into the ledger: the row is written
    when the account has its three volumes, [KeyError] is raised on the
    symbol otherwise. *)
Lemma copy_symbol_outcome ei exchange symbol w :
  (do free <-
     lift (getitem (acct_free (get_account_markets ei exchange)) symbol);
   do used <-
     lift (getitem (acct_used (get_account_markets ei exchange)) symbol);
   do total <-
     lift (getitem (acct_total (get_account_markets ei exchange)) symbol);
   write_holding exchange symbol (mkHolding free used total)) w
  = match report_row ei exchange symbol with
    | Some row =>
        Done tt (mkWorld (<[(exchange, symbol) := row]> (holdings_table w))
                   (transactions_table w) (cancelled_orders w))
    | None => Raised (KeyError symbol) w
    end.
Proof.
  unfold report_row, bind, getitem.
  destruct (acct_free _ !! symbol); [|done]. cbn.
  destruct (acct_used _ !! symbol); [|done]. cbn.
  by destruct (acct_total _ !! symbol).
Qed.

Lemma create_rows_done ei exchange (symbols : list string) w :
  (forall symbol, symbol ∈ symbols ->
     is_Some (report_row ei exchange symbol)) ->
  exists w',
    for_each symbols
      (fun symbol =>
         do free <-
           lift (getitem (acct_free (get_account_markets ei exchange))
                   symbol);
         do used <-
           lift (getitem (acct_used (get_account_markets ei exchange))
                   symbol);
         do total <-
           lift (getitem (acct_total (get_account_markets ei exchange))
                   symbol);
         write_holding exchange symbol (mkHolding free used total)) w
    = Done tt w'
    /\ transactions_table w' = transactions_table w
    /\ cancelled_orders w' = cancelled_orders w
    /\ (forall symbol, symbol ∈ symbols ->
          holdings_table w' !! (exchange, symbol)
          = report_row ei exchange symbol)
    /\ (forall key, ~ (key.1 = exchange /\ key.2 ∈ symbols) ->
          holdings_table w' !! key = holdings_table w !! key).
Proof.
  revert w. induction symbols as [|symbol symbols IH]; intros w Hall.
  - exists w. split; [done|]. split; [done|]. split; [done|].
    split; [|done]. intros s Hs. by apply elem_of_nil in Hs.
  - cbn [for_each]. unfold bind at 1.
    rewrite (copy_symbol_outcome ei exchange symbol w).
    destruct (Hall symbol) as [row Hrow]; [apply list_elem_of_here|].
    rewrite Hrow.
    destruct (IH (mkWorld (<[(exchange, symbol) := row]> (holdings_table w))
                    (transactions_table w) (cancelled_orders w)))
      as (w' & Hrun & Htx & Hcancel & Hin & Hout).
    { intros s Hs. apply Hall. by apply list_elem_of_further. }
    exists w'. split; [exact Hrun|]. split; [exact Htx|].
    split; [exact Hcancel|]. cbn [holdings_table] in Hout. split.
    + intros s Hs. destruct (decide (s ∈ symbols)) as [Hrest|Hrest].
      * by apply Hin.
      * apply elem_of_cons in Hs as [->|Hs]; [|done].
        rewrite Hout by (cbn; tauto). by rewrite lookup_insert_eq.
    + intros key Hkey. rewrite Hout.
      * apply lookup_insert_ne. intros <-. apply Hkey. cbn.
        split; [done|apply list_elem_of_here].
      * intros [Hex Hs]. apply Hkey. split; [done|].
        by apply list_elem_of_further.
Qed.

Lemma account_symbols (free : gmap string Q) symbol :
  symbol ∈ map fst (map_to_list free) <-> is_Some (free !! symbol).
Proof.
  rewrite list_elem_of_fmap. split.
  - intros ([s v] & -> & Hin). apply elem_of_map_to_list in Hin. by exists v.
  - intros [v Hv]. exists (symbol, v). split; [done|].
    by apply elem_of_map_to_list.
Qed.

(** X10: when every symbol that an exchange lists under its free volumes
    is also listed under its used and total volumes, the bootstrap returns.
    Every listed symbol of every known exchange gets a row with the three
    reported volumes, every other row is as it was, and no transaction is
    recorded. *)
Theorem bootstrap_copies_accounts ei w :
  (forall exchange symbol,
     exchange ∈ exchanges ei ->
     is_Some (acct_free (get_account_markets ei exchange) !! symbol) ->
     is_Some (report_row ei exchange symbol)) ->
  exists w',
    create_holdings ei w = Done tt w'
    /\ transactions_table w' = transactions_table w
    /\ cancelled_orders w' = cancelled_orders w
    /\ (forall exchange symbol,
          exchange ∈ exchanges ei ->
          is_Some (acct_free (get_account_markets ei exchange) !! symbol) ->
          holdings_table w' !! (exchange, symbol)
          = report_row ei exchange symbol)
    /\ (forall exchange symbol,
          exchange ∉ exchanges ei
          \/ acct_free (get_account_markets ei exchange) !! symbol = None ->
          holdings_table w' !! (exchange, symbol)
          = holdings_table w !! (exchange, symbol)).
Proof.
  unfold create_holdings, create_holding.
  revert w. induction (exchanges ei) as [|exchange rest IH]; intros w Hall.
  - exists w. split; [done|]. split; [done|]. split; [done|].
    split; [|done]. intros ex s Hex. by apply elem_of_nil in Hex.
  - cbn [for_each]. unfold bind at 1. cbv zeta.
    destruct (create_rows_done ei exchange
                (map fst (map_to_list
                            (acct_free (get_account_markets ei exchange)))) w)
      as (w1 & Hrun1 & Htx1 & Hcancel1 & Hin1 & Hout1).
    { intros s Hs. apply Hall; [apply list_elem_of_here|].
      by apply account_symbols. }
    cbv zeta in Hrun1. rewrite Hrun1.
    destruct (IH w1) as (w' & Hrun & Htx & Hcancel & Hin & Hout).
    { intros ex s Hex. apply Hall. by apply list_elem_of_further. }
    exists w'. split; [exact Hrun|]. split; [congruence|].
    split; [congruence|]. split.
    + intros ex s Hex Hs.
      destruct (decide (ex ∈ rest)) as [Hrest|Hrest]; [by apply Hin|].
      apply elem_of_cons in Hex as [->|Hex]; [|done].
      rewrite Hout by (by left). apply Hin1. by apply account_symbols.
    + intros ex s Hno. rewrite Hout.
      * apply Hout1. cbn. intros [-> Hs]. apply account_symbols in Hs.
        destruct Hno as [Hno|Hno].
        -- apply Hno, list_elem_of_here.
        -- rewrite Hno in Hs. by destruct Hs.
      * destruct Hno as [Hno|Hno]; [left|by right].
        intros Hex. apply Hno. by apply list_elem_of_further.
Qed.

Lemma bootstrap_copies_accounts_witness :
  let account := mkAccountMarkets {[ "BTC" := 1 ]} {[ "BTC" := 2 ]}
                   {[ "BTC" := 3 ]} in
  let ei := one_pair_exchange "BTC/USDT" (mkOrderBook [] []) account [] in
  exists w',
    create_holdings ei (ledger []) = Done tt w'
    /\ holdings_table w' !! ("binance", "BTC") = Some (mkHolding 1 2 3).
Proof.
  intros account ei.
  destruct (bootstrap_copies_accounts ei (ledger []))
    as (w' & Hrun & _ & _ & Hin & _).
  - intros exchange symbol _ [free Hfree].
    unfold report_row. cbn [get_account_markets ei one_pair_exchange] in *.
    cbn [acct_free acct_used acct_total account] in *.
    apply lookup_singleton_Some in Hfree as [<- <-].
    rewrite !lookup_singleton_eq. by eexists.
  - exists w'. split; [exact Hrun|].
    rewrite (Hin "binance" "BTC"); [reflexivity| |].
    + apply list_elem_of_here.
    + by eexists.
Defined.

Lemma for_each_keyerror_or_done {A} (l : list A) (body : A -> op unit) :
  (forall x, x ∈ l -> keyerror_or_done (body x)) ->
  keyerror_or_done (for_each l body).
Proof.
  induction l as [|x l IH]; intros Hbody w; [left; by exists w|].
  cbn [for_each]. unfold bind.
  destruct (Hbody x (list_elem_of_here _ _) w)
    as [(w1 & ->)|(key & w1 & ->)].
  - apply IH. intros y Hy. by apply Hbody, list_elem_of_further.
  - right. by exists key, w1.
Qed.

Lemma for_each_always_keyerror {A} (l : list A) (body : A -> op unit) x :
  (forall y, y ∈ l -> keyerror_or_done (body y)) ->
  x ∈ l -> always_keyerror (body x) ->
  always_keyerror (for_each l body).
Proof.
  intros Hbody Hx Hraise.
  induction l as [|y l IH]; [by apply elem_of_nil in Hx|].
  intros w. cbn [for_each]. unfold bind.
  destruct (Hbody y (list_elem_of_here _ _) w)
    as [(w1 & Hrun)|(key & w1 & Hrun)].
  - rewrite Hrun. apply elem_of_cons in Hx as [->|Hx].
    + destruct (Hraise w) as (key & w2 & Hw). congruence.
    + apply IH; [|done]. intros z Hz. by apply Hbody, list_elem_of_further.
  - rewrite Hrun. by exists key, w1.
Qed.

(** X11: when some known exchange lists a symbol under its free volumes
    without a used or a total volume for it, the bootstrap raises
    [KeyError]. *)
Theorem bootstrap_incomplete_account_raises ei w exchange symbol :
  exchange ∈ exchanges ei ->
  is_Some (acct_free (get_account_markets ei exchange) !! symbol) ->
  report_row ei exchange symbol = None ->
  exists key w', create_holdings ei w = Raised (KeyError key) w'.
Proof.
  intros Hex Hfree Hrow. unfold create_holdings, create_holding. cbv zeta.
  assert (Hsymbol : forall ex s,
             keyerror_or_done
               (do free <-
                  lift (getitem (acct_free (get_account_markets ei ex)) s);
                do used <-
                  lift (getitem (acct_used (get_account_markets ei ex)) s);
                do total <-
                  lift (getitem (acct_total (get_account_markets ei ex)) s);
                write_holding ex s (mkHolding free used total))).
  { intros ex s w0. rewrite copy_symbol_outcome.
    destruct (report_row ei ex s); [left; by eexists|right; by eexists _, _]. }
  apply (for_each_always_keyerror _ _ exchange); [|done|].
  - intros ex _. apply for_each_keyerror_or_done. intros s _. apply Hsymbol.
  - apply (for_each_always_keyerror _ _ symbol).
    + intros s _. apply Hsymbol.
    + by apply account_symbols.
    + intros w0. rewrite copy_symbol_outcome, Hrow. by eexists _, _.
Qed.

Lemma bootstrap_incomplete_account_raises_witness :
  let account := mkAccountMarkets {[ "BTC" := 1 ]} ∅ {[ "BTC" := 1 ]} in
  let ei := one_pair_exchange "BTC/USDT" (mkOrderBook [] []) account [] in
  exists key w', create_holdings ei (ledger []) = Raised (KeyError key) w'.
Proof.
  intros account ei.
  apply (bootstrap_incomplete_account_raises ei (ledger []) "binance" "BTC").
  - apply list_elem_of_here.
  - by eexists.
  - reflexivity.
Defined.

(** One iteration of the loop of [__update_holdings]. *)
Lemma update_rows_step ei exchange symbol h rest cache w :
  cache_sound ei cache ->
  exists cache',
    cache_sound ei cache'
    /\ update_rows ei (((exchange, symbol), h) :: rest) cache w
       = match report_row ei exchange symbol with
         | Some row =>
             update_rows ei rest cache'
               (mkWorld (<[(exchange, symbol) := row]> (holdings_table w))
                  (transactions_table w) (cancelled_orders w))
         | None => Raised (KeyError symbol) w
         end.
Proof.
  intros Hcache.
  exists (match cache !! exchange with
          | Some _ => cache
          | None => <[exchange := get_account_markets ei exchange]> cache
          end).
  assert (Hget : getitem
                   (match cache !! exchange with
                    | Some _ => cache
                    | None =>
                        <[exchange := get_account_markets ei exchange]> cache
                    end) exchange
                 = Ok (get_account_markets ei exchange)).
  { destruct (cache !! exchange) as [account|] eqn:E.
    - apply getitem_Some. rewrite E. f_equal. by apply Hcache.
    - apply getitem_Some, lookup_insert_eq. }
  split.
  - intros ex account. destruct (cache !! exchange) eqn:E; [apply Hcache|].
    rewrite lookup_insert. case_decide as Hex.
    + subst ex. by intros [= <-].
    + apply Hcache.
  - cbn [update_rows]. unfold bind at 1. rewrite Hget. cbn [lift ret].
    unfold report_row, bind, getitem, update_holding, write_holding.
    destruct (acct_free _ !! symbol); [|done]. cbn.
    destruct (acct_used _ !! symbol); [|done]. cbn.
    by destruct (acct_total _ !! symbol).
Qed.

Lemma update_rows_done ei rows cache w :
  cache_sound ei cache ->
  (forall exchange symbol h,
     ((exchange, symbol), h) ∈ rows ->
     is_Some (report_row ei exchange symbol)) ->
  exists w',
    update_rows ei rows cache w = Done tt w'
    /\ transactions_table w' = transactions_table w
    /\ cancelled_orders w' = cancelled_orders w
    /\ (forall exchange symbol,
          (exchange, symbol) ∈ rows.*1 ->
          holdings_table w' !! (exchange, symbol)
          = report_row ei exchange symbol)
    /\ (forall key, key ∉ rows.*1 ->
          holdings_table w' !! key = holdings_table w !! key).
Proof.
  revert cache w.
  induction rows as [|[[exchange symbol] h] rows IH]; intros cache w Hcache Hall.
  - exists w. split; [done|]. split; [done|]. split; [done|].
    split; [|done]. intros ex s Hin. by apply elem_of_nil in Hin.
  - destruct (update_rows_step ei exchange symbol h rows cache w Hcache)
      as (cache' & Hcache' & ->).
    destruct (Hall exchange symbol h (list_elem_of_here _ _)) as [row Hrow].
    rewrite Hrow.
    destruct (IH cache'
                (mkWorld (<[(exchange, symbol) := row]> (holdings_table w))
                   (transactions_table w) (cancelled_orders w)) Hcache')
      as (w' & Hrun & Htx & Hcancel & Hin & Hout).
    { intros ex s h' Hin. apply (Hall ex s h').
      by apply list_elem_of_further. }
    exists w'. split; [exact Hrun|]. split; [exact Htx|].
    split; [exact Hcancel|]. cbn [holdings_table] in Hout. split.
    + intros ex s Hkey. cbn [fmap list_fmap fst] in Hkey.
      destruct (decide ((ex, s) ∈ rows.*1)) as [Hrest|Hrest];
        [by apply Hin|].
      apply elem_of_cons in Hkey as [[= -> ->]|Hkey]; [|done].
      rewrite Hout by done. by rewrite lookup_insert_eq.
    + intros key Hkey. cbn [fmap list_fmap fst] in Hkey.
      apply not_elem_of_cons in Hkey as [Hne Hkey].
      rewrite Hout by done. by apply lookup_insert_ne.
Qed.

Lemma update_rows_raises ei rows cache w exchange symbol h :
  cache_sound ei cache ->
  ((exchange, symbol), h) ∈ rows ->
  report_row ei exchange symbol = None ->
  exists key w', update_rows ei rows cache w = Raised (KeyError key) w'.
Proof.
  intros Hcache Hin Hrow. revert cache w Hcache.
  induction rows as [|[[ex s] h'] rows IH]; intros cache w Hcache;
    [by apply elem_of_nil in Hin|].
  destruct (update_rows_step ei ex s h' rows cache w Hcache)
    as (cache' & Hcache' & ->).
  destruct (report_row ei ex s) as [row|] eqn:E; [|by eexists _, _].
  apply elem_of_cons in Hin as [[= -> -> ->]|Hin]; [congruence|].
  by apply IH.
Qed.

Lemma cache_sound_empty ei : cache_sound ei ∅.
Proof. intros exchange account. by rewrite lookup_empty. Qed.

(** X12: when the exchange reports the three volumes of every symbol the
    ledger holds, the live re-sync returns: every row of the ledger carries
    the reported volumes, no row is added or removed, and no transaction is
    recorded. *)
Theorem resync_overwrites_rows ei w :
  (forall exchange symbol,
     is_Some (holdings_table w !! (exchange, symbol)) ->
     is_Some (report_row ei exchange symbol)) ->
  exists w',
    update_holdings ei w = Done tt w'
    /\ transactions_table w' = transactions_table w
    /\ cancelled_orders w' = cancelled_orders w
    /\ forall exchange symbol,
         holdings_table w' !! (exchange, symbol)
         = match holdings_table w !! (exchange, symbol) with
           | Some _ => report_row ei exchange symbol
           | None => None
           end.
Proof.
  intros Hall. unfold update_holdings, bind, read_all_holdings.
  destruct (update_rows_done ei (map_to_list (holdings_table w)) ∅ w
              (cache_sound_empty ei))
    as (w' & Hrun & Htx & Hcancel & Hin & Hout).
  { intros ex s h Hrow. apply elem_of_map_to_list in Hrow.
    apply Hall. by exists h. }
  exists w'. split; [exact Hrun|]. split; [exact Htx|].
  split; [exact Hcancel|]. intros ex s.
  destruct (holdings_table w !! (ex, s)) as [h|] eqn:E.
  - apply Hin. apply list_elem_of_fmap. exists ((ex, s), h).
    split; [done|]. by apply elem_of_map_to_list.
  - rewrite Hout; [done|]. intros Hkey.
    apply list_elem_of_fmap in Hkey as ([key h] & Hk & Hrow).
    cbn in Hk; subst key. apply elem_of_map_to_list in Hrow. congruence.
Qed.

Lemma resync_overwrites_rows_witness :
  let account := mkAccountMarkets {[ "BTC" := 7 ]} {[ "BTC" := 1 ]}
                   {[ "BTC" := 8 ]} in
  let ei := one_pair_exchange "BTC/USDT" (mkOrderBook [] []) account [] in
  let w := ledger [(("binance", "BTC"), mkHolding 1 0 1)] in
  exists w',
    update_holdings ei w = Done tt w'
    /\ holdings_table w' !! ("binance", "BTC") = Some (mkHolding 7 1 8).
Proof.
  intros account ei w.
  destruct (resync_overwrites_rows ei w) as (w' & Hrun & _ & _ & Hrows).
  - intros exchange symbol [h Hrow].
    unfold w, ledger in Hrow; cbn [holdings_table list_to_map foldr] in Hrow.
    apply lookup_insert_Some in Hrow as [[[= <- <-] _]|[_ Hrow]].
    + by eexists.
    + by rewrite lookup_empty in Hrow.
  - exists w'. split; [exact Hrun|]. by rewrite Hrows.
Defined.

(** X13: when the ledger holds a symbol for which the exchange no longer
    reports a free, a used or a total volume, the live re-sync raises
    [KeyError]. *)
Theorem resync_unreported_symbol_raises ei w exchange symbol :
  is_Some (holdings_table w !! (exchange, symbol)) ->
  report_row ei exchange symbol = None ->
  exists key w', update_holdings ei w = Raised (KeyError key) w'.
Proof.
  intros [h Hrow] Hreport. unfold update_holdings, bind, read_all_holdings.
  apply (update_rows_raises ei _ ∅ w exchange symbol h);
    [apply cache_sound_empty| |done].
  by apply elem_of_map_to_list.
Qed.

Lemma resync_unreported_symbol_raises_witness :
  let ei := one_pair_exchange "BTC/USDT" (mkOrderBook [] []) no_account [] in
  let w := ledger [(("binance", "BTC"), mkHolding 1 0 1)] in
  exists key w', update_holdings ei w = Raised (KeyError key) w'.
Proof.
  intros ei w.
  apply (resync_unreported_symbol_raises ei w "binance" "BTC").
  - by eexists.
  - reflexivity.
Defined.

(** X14: on an empty ledger the reconciliation is the bootstrap, whatever
    the mode; on a populated ledger in live mode it is the re-sync; and the
    dictionary it returns is always read from the ledger as the
    reconciliation leaves it. *)
Theorem reconcile_reads_after_writing cfg ei w :
  (holdings_table w = ∅ ->
   reconcile cfg ei w = (do _ <- create_holdings ei; get_holdings) w)
  /\ (holdings_table w <> ∅ ->
      mode cfg = "live" ->
      reconcile cfg ei w = (do _ <- update_holdings ei; get_holdings) w)
  /\ (forall d w',
        reconcile cfg ei w = Done d w' ->
        d = holdings_dict (holdings_table w')).
Proof.
  split; [|split].
  - intros Hempty. unfold reconcile, bind at 1, get_holdings at 1.
    by rewrite Hempty, holdings_dict_empty.
  - intros Hrows Hlive. unfold reconcile, bind at 1, get_holdings at 1.
    rewrite holdings_dict_populated by done.
    unfold is_live. apply String.eqb_eq in Hlive. by rewrite Hlive.
  - intros d w'. unfold reconcile, bind at 1, get_holdings at 1.
    destruct (dict_is_empty _); [|destruct (is_live cfg)].
    + unfold bind, get_holdings.
      destruct (create_holdings ei w); [|discriminate]. by intros [= <- <-].
    + unfold bind, get_holdings.
      destruct (update_holdings ei w); [|discriminate]. by intros [= <- <-].
    + by intros [= <- <-].
Qed.

Lemma reconcile_reads_after_writing_witness :
  let account := mkAccountMarkets {[ "BTC" := 1 ]} {[ "BTC" := 2 ]}
                   {[ "BTC" := 3 ]} in
  let ei := one_pair_exchange "BTC/USDT" (mkOrderBook [] []) account [] in
  reconcile live_config ei (ledger [])
  = (do _ <- create_holdings ei; get_holdings) (ledger []).
Proof.
  intros account ei.
  apply (proj1 (reconcile_reads_after_writing live_config ei (ledger []))).
  reflexivity.
Defined.

(** ** The decision loop re-reads the ledger *)

Lemma decide_pair_fresh cfg ei exchange markets market_pair w d w' :
  decide_pair cfg ei exchange markets market_pair
    (holdings_dict (holdings_table w)) w = Done d w' ->
  d = holdings_dict (holdings_table w').
Proof.
  unfold decide_pair. unfold bind at 1.
  destruct (unpack2 _) as [[base_symbol quote_symbol]|e]; [|discriminate].
  cbn [lift ret]. unfold bind at 1.
  destruct (alist_getitem _ _) as [r|e]; [|discriminate].
  cbn [lift ret]. unfold bind at 1.
  destruct (evaluate _ _ _ _ _) as [[| |]|e]; [| | |discriminate];
    cbn [lift ret].
  - unfold bind, get_holdings. destruct (buy _ _ _ _ _ _ _ _); [|discriminate].
    by intros [= <- <-].
  - unfold bind, get_holdings. destruct (sell _ _ _ _ _ _ _ _); [|discriminate].
    by intros [= <- <-].
  - by intros [= <- <-].
Qed.

Lemma decide_pairs_fresh cfg ei exchange markets pairs w d w' :
  decide_pairs cfg ei exchange markets pairs
    (holdings_dict (holdings_table w)) w = Done d w' ->
  d = holdings_dict (holdings_table w').
Proof.
  revert w. induction pairs as [|market_pair pairs IH]; intros w.
  - by intros [= <- <-].
  - cbn [decide_pairs]. unfold bind.
    destruct (decide_pair _ _ _ _ _ _ _) as [d1 w1|] eqn:E; [|discriminate].
    apply decide_pair_fresh in E as ->. apply IH.
Qed.

Lemma decide_pairs_reread cfg ei exchange markets pairs w :
  decide_pairs cfg ei exchange markets pairs
    (holdings_dict (holdings_table w)) w
  = match reread_pairs cfg ei exchange markets pairs w with
    | Done _ w' => Done (holdings_dict (holdings_table w')) w'
    | Raised e w' => Raised e w'
    end.
Proof.
  revert w. induction pairs as [|market_pair pairs IH]; intros w; [done|].
  cbn [decide_pairs reread_pairs]. unfold bind, get_holdings.
  destruct (decide_pair _ _ _ _ _ _ _) as [d w1|e w1] eqn:E; [|done].
  apply decide_pair_fresh in E as ->. apply IH.
Qed.

(** X15: the decision loop evaluates every pair against the ledger as the
    trades before it left it.  Started with the dictionary of the ledger,
    the loop over all exchanges and pairs does exactly what a loop does
    that reads the holdings from the ledger anew before each pair, and when
    it returns it answers the dictionary of the ledger it leaves. *)
Theorem decision_loop_reads_fresh_holdings cfg ei rsi_data rsi_sorted_pairs w :
  decide_exchanges cfg ei rsi_data rsi_sorted_pairs
    (holdings_dict (holdings_table w)) w
  = match reread_exchanges cfg ei rsi_data rsi_sorted_pairs w with
    | Done _ w' => Done (holdings_dict (holdings_table w')) w'
    | Raised e w' => Raised e w'
    end.
Proof.
  revert w. induction rsi_data as [|[exchange markets] rsi_data IH]; intros w;
    [done|].
  cbn [decide_exchanges reread_exchanges]. unfold bind at 1 3.
  destruct (alist_getitem _ _) as [pairs|e]; [|done].
  cbn [lift ret]. unfold bind.
  rewrite decide_pairs_reread.
  destruct (reread_pairs _ _ _ _ _ _) as [[] w1|e w1]; [apply IH|done].
Qed.

(** Two hot pairs share 100 USDT under a trade limit of 60: the first buy
    spends 60, the second is decided and sized on the 40 that are left. *)
Example second_pair_sees_first_trade :
  let cfg := simulation_config {[ "USDT" := 60 ]} in
  let ei := one_book_exchange (mkOrderBook [(2, 1)] []) in
  let w := ledger [(("binance", "USDT"), mkHolding 100 0 100)] in
  exists d w',
    decide_exchanges cfg ei
      [("binance", [("ETH/USDT", mkIndicatorResult [20] true false);
                    ("LTC/USDT", mkIndicatorResult [25] true false)])]
      [("binance", ["ETH/USDT"; "LTC/USDT"])]
      (holdings_dict (holdings_table w)) w
    = Done d w'
    /\ map quote_value (transactions_table w') = [60; 40]
    /\ holdings_table w' !! ("binance", "USDT") = Some (mkHolding 0 0 0).
Proof.
  intros cfg ei w. eexists _, _. split; [vm_compute; reflexivity|].
  split; reflexivity.
Qed.

(** ** What a cycle may do to the world *)

Lemma grows_refl w : grows w w.
Proof.
  split; [exists []; by rewrite app_nil_r|]. split; done.
Qed.

Lemma grows_trans w1 w2 w3 : grows w1 w2 -> grows w2 w3 -> grows w1 w3.
Proof.
  intros ([t12 H12] & Hk12 & Hc12) ([t23 H23] & Hk23 & Hc23).
  split; [exists (t12 ++ t23)%list; by rewrite H23, H12, app_assoc|].
  split; [auto|congruence].
Qed.

Lemma grows_write_holding exchange symbol h :
  respects grows (write_holding exchange symbol h).
Proof.
  intros w. split; [exists []; cbn; by rewrite app_nil_r|].
  split; [|done]. intros key Hkey. cbn.
  rewrite lookup_insert. by case_decide.
Qed.

Lemma grows_create_transaction t : respects grows (create_transaction t).
Proof. intros w. split; [by exists [t]|]. split; done. Qed.

Create HintDb grows.

#[local] Hint Resolve grows_refl grows_write_holding grows_create_transaction
  : grows.

(** Walks an operation built from binds, conditionals and the primitives of
    the ledger. *)
Ltac grows_steps :=
  repeat first
    [ solve [auto using respects_ret, respects_raise, respects_lift,
               respects_read_holdings, respects_read_all_holdings,
               respects_one, respects_get_holdings with grows]
    | apply (respects_bind grows grows_trans)
    | match goal with
      | |- forall _, respects _ _ => intro
      | |- respects _ (if ?b then _ else _) => destruct b
      | |- respects _ (match ?x with _ => _ end) => destruct x
      end ].

Lemma grows_buy cfg ei base_symbol quote_symbol market_pair exchange
    current_holdings :
  respects grows
    (buy cfg ei base_symbol quote_symbol market_pair exchange
       current_holdings).
Proof.
  unfold buy, create_holding, update_holding; cbv zeta.
  destruct (asks _) as [|[ask size] deeper]; grows_steps.
Qed.

Lemma grows_sell cfg ei base_symbol quote_symbol market_pair exchange
    current_holdings :
  respects grows
    (sell cfg ei base_symbol quote_symbol market_pair exchange
       current_holdings).
Proof.
  unfold sell, update_holding; cbv zeta.
  destruct (bids _) as [|[bid size] deeper]; grows_steps.
Qed.

Lemma grows_create_holdings ei : respects grows (create_holdings ei).
Proof.
  unfold create_holdings, create_holding; cbv zeta.
  apply (respects_for_each grows grows_refl grows_trans). intros exchange.
  apply (respects_for_each grows grows_refl grows_trans). intros symbol.
  grows_steps.
Qed.

Lemma grows_update_rows ei rows cache :
  respects grows (update_rows ei rows cache).
Proof.
  revert cache. induction rows as [|[[exchange symbol] h] rows IH];
    intros cache; [apply (respects_ret grows grows_refl)|].
  cbn [update_rows]; cbv zeta. unfold update_holding.
  do 5 (apply (respects_bind grows grows_trans); [grows_steps|intro]).
  apply IH.
Qed.

Lemma grows_reconcile cfg ei : respects grows (reconcile cfg ei).
Proof.
  unfold reconcile, update_holdings.
  pose proof (grows_create_holdings ei).
  pose proof (grows_update_rows ei).
  grows_steps.
Qed.

Lemma grows_sweep cfg ei clock : respects grows (sweep_stale_orders cfg ei clock).
Proof.
  intros w. rewrite sweep_world. apply grows_refl.
Qed.

Lemma grows_decide_pairs cfg ei exchange markets pairs current_holdings :
  respects grows (decide_pairs cfg ei exchange markets pairs current_holdings).
Proof.
  revert current_holdings.
  induction pairs as [|market_pair pairs IH]; intros current_holdings;
    [apply (respects_ret grows grows_refl)|].
  cbn [decide_pairs]. apply (respects_bind grows grows_trans); [|apply IH].
  unfold decide_pair.
  pose proof (grows_buy cfg ei). pose proof (grows_sell cfg ei).
  apply (respects_bind grows grows_trans); [grows_steps|].
  intros [base_symbol quote_symbol]. grows_steps.
Qed.

Lemma grows_decide_exchanges cfg ei rsi_data rsi_sorted_pairs
    current_holdings :
  respects grows
    (decide_exchanges cfg ei rsi_data rsi_sorted_pairs current_holdings).
Proof.
  revert current_holdings.
  induction rsi_data as [|[exchange markets] rsi_data IH];
    intros current_holdings; [apply (respects_ret grows grows_refl)|].
  cbn [decide_exchanges].
  pose proof (grows_decide_pairs cfg ei exchange markets).
  grows_steps.
Qed.

(** X16: whatever its inputs and whether it returns or raises, a cycle only
    appends to the transactions, removes no holding from the ledger and
    cancels no order. *)
Theorem cycle_only_grows cfg ei sa clock market_pairs w :
  grows w (world_of (run cfg ei sa clock market_pairs w)).
Proof.
  revert w. change (respects grows (run cfg ei sa clock market_pairs)).
  unfold run; cbv zeta.
  pose proof (grows_sweep cfg ei clock).
  pose proof (grows_reconcile cfg ei).
  pose proof (grows_decide_exchanges cfg ei).
  apply (respects_bind grows grows_trans); [grows_steps|].
  intros [rsi_data rsi_sorted_pairs]. grows_steps.
Qed.

(** ** Classification *)

Lemma alist_setitem_fresh {V} (k : string) (v : V) (d : list (string * V)) :
  k ∉ d.*1 -> alist_setitem k v d = (d ++ [(k, v)])%list.
Proof.
  induction d as [|[k' v'] d IH]; [done|].
  cbn [fmap list_fmap fst alist_setitem]. intros Hk.
  apply not_elem_of_cons in Hk as [Hne Hk].
  destruct (String.eqb_spec k' k) as [->|_]; [done|].
  cbn. by rewrite IH.
Qed.

Lemma classify_markets_from cfg sa exchange markets acc :
  NoDup (acc.*1 ++ markets.*1) ->
  foldl (fun rsi '(market_pair, symbol) =>
           match get_historical_data sa symbol exchange "1d" with
           | Some one_day_historical_data =>
               alist_setitem market_pair
                 (analyze_rsi sa one_day_historical_data
                    (buy_rsi_threshold cfg) (sell_rsi_threshold cfg))
                 rsi
           | None => rsi
           end)
        acc markets
  = (acc ++ omap (classified_entry cfg sa exchange) markets)%list.
Proof.
  revert acc. induction markets as [|[market_pair symbol] markets IH];
    intros acc Hnodup; [by rewrite app_nil_r|].
  cbn [foldl omap list_omap fmap list_fmap fst] in *.
  unfold classified_entry at 1; cbn [fst snd].
  apply NoDup_app in Hnodup as (Hacc & Hdisjoint & Hmarkets).
  apply NoDup_cons in Hmarkets as [Hfresh Hmarkets].
  assert (Hkey : market_pair ∉ acc.*1).
  { intros Hin. apply (Hdisjoint _ Hin), list_elem_of_here. }
  destruct (get_historical_data sa symbol exchange "1d") as [data|].
  - rewrite alist_setitem_fresh by done. rewrite IH.
    + by rewrite <- app_assoc.
    + rewrite fmap_app. cbn [fmap list_fmap fst]. rewrite <- app_assoc.
      cbn [app]. apply NoDup_app. split; [done|]. split; [done|].
      by apply NoDup_cons.
  - apply IH. apply NoDup_app. split; [done|]. split; [|done].
    intros k Hk Hin. apply (Hdisjoint _ Hk). by apply list_elem_of_further.
Qed.

(** X17: the classification of the markets of one exchange, whose keys are
    distinct, keeps the markets whose historical data could be fetched, in
    the order of the markets and each with its own analysis, and skips the
    others. *)
Theorem classification_skips_failed_fetches cfg sa exchange markets :
  NoDup markets.*1 ->
  classify_markets cfg sa exchange markets
  = omap (classified_entry cfg sa exchange) markets.
Proof.
  intros Hnodup. unfold classify_markets.
  by rewrite (classify_markets_from cfg sa exchange markets []).
Qed.

Lemma classification_skips_failed_fetches_witness :
  let sa := mkStrategyAnalyzer
              (fun symbol _ _ =>
                 if String.eqb symbol "B/Q" then None else Some [1])
              (fun _ _ _ => mkIndicatorResult [50] false false) in
  map fst (classify_markets (simulation_config ∅) sa "binance"
             [("A/Q", "A/Q"); ("B/Q", "B/Q"); ("C/Q", "C/Q")])
  = ["A/Q"; "C/Q"].
Proof.
  intros sa. rewrite classification_skips_failed_fetches; [reflexivity|].
  cbn. repeat (apply NoDup_cons; split;
               [rewrite ?elem_of_cons, elem_of_nil; intros H;
                repeat destruct H as [H|H]; discriminate || done|]).
  apply NoDup_nil_2.
Defined.

(** ** A pair without an indicator value *)

Lemma alist_getitem_NoDup {V} (d : list (string * V)) k v :
  NoDup d.*1 -> (k, v) ∈ d -> alist_getitem d k = Ok v.
Proof.
  induction d as [|[k' v'] d IH]; intros Hnodup Hin;
    [by apply elem_of_nil in Hin|].
  cbn [fmap list_fmap fst] in Hnodup.
  apply NoDup_cons in Hnodup as [Hfresh Hnodup].
  cbn [alist_getitem].
  apply elem_of_cons in Hin as [[= -> ->]|Hin].
  - by rewrite String.eqb_refl.
  - destruct (String.eqb_spec k' k) as [->|_]; [|by apply IH].
    exfalso. apply Hfresh. apply list_elem_of_fmap. by exists (k, v).
Qed.

Lemma result_map_list_index_error {A B} (f : A -> result B) (l : list A) x :
  (forall y, y ∈ l -> (exists b, f y = Ok b) \/ f y = Err IndexError) ->
  x ∈ l -> f x = Err IndexError ->
  result_map_list f l = Err IndexError.
Proof.
  intros Hall Hx Hfx. induction l as [|y l IH];
    [by apply elem_of_nil in Hx|].
  cbn [result_map_list].
  destruct (Hall y (list_elem_of_here _ _)) as [[b Hb]|Hb];
    rewrite Hb; [|done]. cbn [result_bind].
  apply elem_of_cons in Hx as [->|Hx]; [congruence|].
  rewrite IH; [done| |done].
  intros z Hz. by apply Hall, list_elem_of_further.
Qed.

(** X18: when a classified pair of an exchange, whose keys are distinct,
    has an empty list of indicator values, sorting the pairs of that
    exchange raises [IndexError]. *)
Theorem sort_raises_on_empty_values rsi x r :
  NoDup rsi.*1 ->
  (x, r) ∈ rsi ->
  values r = [] ->
  rsi_sorted rsi = Err IndexError.
Proof.
  intros Hnodup Hin Hvalues. unfold rsi_sorted.
  rewrite (result_map_list_index_error _ _ x); [done| | |].
  - intros y Hy. unfold first_value.
    destruct (alist_getitem_elem rsi y Hy) as (ry & -> & _).
    cbn [result_bind]. destruct (values ry); [by right|left; by eexists].
  - apply list_elem_of_fmap. by exists (x, r).
  - unfold first_value. rewrite (alist_getitem_NoDup rsi x r) by done.
    cbn [result_bind]. by rewrite Hvalues.
Qed.

Lemma sort_raises_on_empty_values_witness :
  rsi_sorted [("A/Q", mkIndicatorResult [30] true false);
              ("B/Q", mkIndicatorResult [] false false)]
  = Err IndexError.
Proof.
  apply (sort_raises_on_empty_values _ "B/Q"
           (mkIndicatorResult [] false false)).
  - cbn. apply NoDup_cons. split.
    + rewrite elem_of_cons, elem_of_nil. intros [H|H]; [discriminate|done].
    + apply NoDup_cons. split; [apply not_elem_of_nil|apply NoDup_nil_2].
  - apply list_elem_of_further, list_elem_of_here.
  - reflexivity.
Defined.

(** ** Pair identifiers *)

Lemma split_slash_nonempty s : split_slash s <> [].
Proof.
  destruct s as [|c s]; cbn [split_slash]; [done|].
  destruct (Ascii.eqb c "/"); [done|]. by destruct (split_slash s).
Qed.

Lemma split_slash_single s b :
  split_slash s = [b] -> s = b /\ count_slash s = 0%nat.
Proof.
  revert b. induction s as [|c s IH]; intros b; cbn [split_slash count_slash].
  - by intros [= <-].
  - destruct (Ascii.eqb c "/") eqn:Hc.
    + intros [= _ H]. by apply split_slash_nonempty in H.
    + destruct (split_slash s) as [|p ps] eqn:Hs.
      * by apply split_slash_nonempty in Hs.
      * intros [= <- ->]. by destruct (IH p eq_refl) as [-> Hcount].
Qed.

Lemma split_slash_no_slash s :
  count_slash s = 0%nat -> split_slash s = [s].
Proof.
  induction s as [|c s IH]; cbn [split_slash count_slash]; [done|].
  destruct (Ascii.eqb c "/"); [discriminate|].
  intros Hs. by rewrite IH.
Qed.

(** X19: a pair identifier splits into a base and a quote symbol exactly
    when it is the base symbol, one ['/'] and the quote symbol, neither
    symbol containing a ['/']; every other identifier makes the unpacking
    raise [ValueError]. *)
Theorem pair_identifier_splits s base_symbol quote_symbol :
  (unpack2 (split_slash s) = Ok (base_symbol, quote_symbol)
   <-> s = base_symbol ++ "/" ++ quote_symbol
       /\ count_slash base_symbol = 0%nat
       /\ count_slash quote_symbol = 0%nat)
  /\ (count_slash s <> 1%nat -> unpack2 (split_slash s) = Err ValueError).
Proof.
  assert (Hiff : forall s a b,
             split_slash s = [a; b]
             <-> s = a ++ "/" ++ b
                 /\ count_slash a = 0%nat /\ count_slash b = 0%nat).
  { clear. induction s as [|c s IH]; intros a b.
    - split; [discriminate|]. intros (H & _). by destruct a.
    - cbn [split_slash]. destruct (Ascii.eqb_spec c "/") as [->|Hc].
      + split.
        * intros [= <- H]. apply split_slash_single in H as [-> Hcount].
          done.
        * intros (H & Ha & Hb). destruct a as [|c' a].
          -- cbn in H. injection H as ->. by rewrite split_slash_no_slash.
          -- cbn in H. injection H as <- _. cbn in Ha.
             discriminate Ha.
      + split.
        * destruct (split_slash s) as [|p ps] eqn:Hs; [discriminate|].
          intros [= <- ->]. destruct (proj1 (IH p b) eq_refl) as (-> & Hp & Hb).
          split; [done|]. split; [|done]. cbn.
          destruct (Ascii.eqb_spec c "/"); done.
        * intros (H & Ha & Hb). destruct a as [|c' a].
          -- cbn in H. by injection H as -> _.
          -- cbn in H. injection H as <- ->. cbn in Ha.
             destruct (Ascii.eqb c "/"); [discriminate|].
             by rewrite (proj2 (IH a b)). }
  assert (Hlen : forall s, length (split_slash s) = S (count_slash s)).
  { clear. induction s as [|c s IH]; [done|].
    cbn [split_slash count_slash]. destruct (Ascii.eqb c "/").
    - cbn. by rewrite IH.
    - destruct (split_slash s); [discriminate|]. exact IH. }
  split.
  - rewrite <- Hiff. unfold unpack2.
    destruct (split_slash s) as [|a [|b [|c l]]]; split; try discriminate;
      by intros [= -> ->].
  - intros Hcount. specialize (Hlen s). unfold unpack2.
    destruct (split_slash s) as [|a [|b [|c l]]]; try done.
    cbn in Hlen. congruence.
Qed.

Lemma pair_identifier_splits_witness :
  unpack2 (split_slash "ETHUSDT") = Err ValueError.
Proof.
  apply (proj2 (pair_identifier_splits "ETHUSDT" "ETH" "USDT")).
  discriminate.
Defined.

(** ** A cycle without a signal *)

Lemma alist_setitem_Forall {V} (P : V -> Prop) k v (d : list (string * V)) :
  P v -> Forall (fun entry => P entry.2) d ->
  Forall (fun entry => P entry.2) (alist_setitem k v d).
Proof.
  intros Hv. induction 1 as [|[k' v'] d Hhead Htail IH];
    cbn [alist_setitem].
  - by constructor.
  - destruct (String.eqb k' k); by constructor.
Qed.

Lemma alist_getitem_Forall {V} (P : V -> Prop) (d : list (string * V)) k v :
  Forall (fun entry => P entry.2) d -> alist_getitem d k = Ok v -> P v.
Proof.
  induction 1 as [|[k' v'] d Hhead Htail IH]; cbn [alist_getitem];
    [discriminate|].
  destruct (String.eqb k' k); [by intros [= <-]|exact IH].
Qed.

Lemma classify_markets_neutral cfg sa exchange markets :
  (forall data hot cold, neutral (analyze_rsi sa data hot cold)) ->
  Forall (fun entry => neutral entry.2)
    (classify_markets cfg sa exchange markets).
Proof.
  intros Hsa. unfold classify_markets.
  generalize (Forall_nil_2 (fun entry : string * IndicatorResult =>
                              neutral entry.2)).
  generalize (@nil (string * IndicatorResult)).
  induction markets as [|[market_pair symbol] markets IH]; intros acc Hacc;
    [done|].
  cbn [foldl]. apply IH.
  destruct (get_historical_data sa symbol exchange "1d"); [|done].
  by apply alist_setitem_Forall.
Qed.

Lemma classify_exchanges_neutral cfg sa market_data rsi_data rsi_sorted_pairs
    rsi_data' rsi_sorted_pairs' :
  (forall data hot cold, neutral (analyze_rsi sa data hot cold)) ->
  Forall (fun entry => Forall (fun pair => neutral pair.2) entry.2) rsi_data ->
  classify_exchanges cfg sa market_data rsi_data rsi_sorted_pairs
  = Ok (rsi_data', rsi_sorted_pairs') ->
  Forall (fun entry => Forall (fun pair => neutral pair.2) entry.2) rsi_data'.
Proof.
  intros Hsa. revert rsi_data rsi_sorted_pairs.
  induction market_data as [|[exchange markets] market_data IH];
    intros rsi_data rsi_sorted_pairs Hacc; cbn [classify_exchanges].
  - by intros [= <- _].
  - destruct (rsi_sorted _) as [pairs|e]; [|discriminate].
    cbn [result_bind]. apply IH.
    apply (alist_setitem_Forall
             (fun markets => Forall (fun pair => neutral pair.2) markets));
      [|done].
    by apply classify_markets_neutral.
Qed.

Lemma decide_pair_neutral cfg ei exchange markets market_pair
    current_holdings w :
  Forall (fun pair => neutral pair.2) markets ->
  decide_pair cfg ei exchange markets market_pair current_holdings w
  = Done current_holdings w
  \/ exists e,
       decide_pair cfg ei exchange markets market_pair current_holdings w
       = Raised e w.
Proof.
  intros Hneutral. unfold decide_pair, bind.
  destruct (unpack2 _) as [[base_symbol quote_symbol]|e];
    [|right; by exists e].
  cbn [lift ret].
  destruct (alist_getitem markets market_pair) as [r|e] eqn:Hr;
    [|right; by exists e].
  cbn [lift ret].
  destruct (alist_getitem_Forall _ _ _ _ Hneutral Hr) as [Hhot Hcold].
  unfold evaluate. rewrite Hhot, Hcold. by left.
Qed.

Lemma decide_pairs_neutral cfg ei exchange markets pairs current_holdings w :
  Forall (fun pair => neutral pair.2) markets ->
  decide_pairs cfg ei exchange markets pairs current_holdings w
  = Done current_holdings w
  \/ exists e,
       decide_pairs cfg ei exchange markets pairs current_holdings w
       = Raised e w.
Proof.
  intros Hneutral. induction pairs as [|market_pair pairs IH]; [by left|].
  cbn [decide_pairs]. unfold bind.
  destruct (decide_pair_neutral cfg ei exchange markets market_pair
              current_holdings w Hneutral) as [->|[e ->]].
  - exact IH.
  - right. by exists e.
Qed.

Lemma decide_exchanges_neutral cfg ei rsi_data rsi_sorted_pairs
    current_holdings w :
  Forall (fun entry => Forall (fun pair => neutral pair.2) entry.2) rsi_data ->
  world_of (decide_exchanges cfg ei rsi_data rsi_sorted_pairs
              current_holdings w) = w.
Proof.
  induction 1 as [|[exchange markets] rsi_data Hhead Htail IH]; [done|].
  cbn [decide_exchanges]. unfold bind at 1.
  destruct (alist_getitem _ _) as [pairs|e]; [|done].
  cbn [lift ret]. unfold bind.
  destruct (decide_pairs_neutral cfg ei exchange markets pairs
              current_holdings w Hhead) as [->|[e ->]]; [exact IH|done].
Qed.

(** X20: in a mode other than live and with a populated ledger, a cycle in
    which the analysis finds every pair neither hot nor cold leaves the
    world exactly as it was, whether it returns or raises: no holding is
    written, no transaction recorded, no order cancelled. *)
Theorem neutral_cycle_changes_nothing cfg ei sa clock market_pairs w :
  mode cfg <> "live" ->
  holdings_table w <> ∅ ->
  (forall data hot cold, neutral (analyze_rsi sa data hot cold)) ->
  world_of (run cfg ei sa clock market_pairs w) = w.
Proof.
  intros Hmode Hrows Hsa. unfold run; cbv zeta. unfold bind at 1.
  destruct (classify_exchanges _ _ _ _ _) as [[rsi_data pairs]|e] eqn:E;
    [|done].
  cbn [lift ret]. unfold bind at 1.
  rewrite sweep_outcome. destruct (head _) as [e|]; [done|].
  unfold bind at 1.
  unfold reconcile at 1, bind at 1, get_holdings at 1.
  rewrite holdings_dict_populated by done.
  unfold is_live. rewrite (proj2 (String.eqb_neq _ _) Hmode).
  unfold ret, bind.
  pose proof (decide_exchanges_neutral cfg ei rsi_data pairs
                (holdings_dict (holdings_table w)) w) as Hloop.
  destruct (decide_exchanges _ _ _ _ _ _) as [d w1|e w1]; apply Hloop;
    by apply (classify_exchanges_neutral _ _ _ _ _ _ _ Hsa (Forall_nil_2 _) E).
Qed.

Lemma neutral_cycle_changes_nothing_witness :
  let cfg := simulation_config ∅ in
  let ei := one_pair_exchange "BTC/USDT" (mkOrderBook [(2, 1)] [(5, 1)])
              no_account [] in
  let sa := constant_analyzer (mkIndicatorResult [50] false false) in
  let w := ledger [(("binance", "BTC"), mkHolding 3 0 3)] in
  world_of (run cfg ei sa (epoch_clock 0) [] w) = w.
Proof.
  intros cfg ei sa w. apply neutral_cycle_changes_nothing.
  - discriminate.
  - intros H. apply (f_equal (fun m => m !! ("binance", "BTC"))) in H.
    vm_compute in H. discriminate H.
  - intros data hot cold. by split.
Defined.

(** ** The decision loop walks the sorted pairs *)








(** A cycle in which the order of the visits shows: A/Q (45) is classified
    before B/Q (30) and both are hot; B/Q is visited first and spends the
    whole quote balance, so A/Q finds none and is not bought. *)
Example lowest_value_is_served_first :
  let cfg := simulation_config ∅ in
  let ei := two_pair_exchange (mkOrderBook [(2, 1)] []) in
  let w := ledger [(("binance", "Q"), mkHolding 100 0 100)] in
  visit_order (classification cfg two_value_analyzer (market_data_of ei []))
  = [("binance", classify_markets cfg two_value_analyzer "binance"
                   [("A/Q", "A/Q"); ("B/Q", "B/Q")], "B/Q");
     ("binance", classify_markets cfg two_value_analyzer "binance"
                   [("A/Q", "A/Q"); ("B/Q", "B/Q")], "A/Q")]
  /\ exists w',
       run cfg ei two_value_analyzer (epoch_clock 0) [] w = Done tt w'
       /\ map tx_base_symbol (transactions_table w') = ["B"].
Proof.
  intros cfg ei w. split; [reflexivity|].
  eexists. split; [vm_compute; reflexivity|reflexivity].
Qed.
